(** * Extractor: locating the rank and suit glyphs of a playing card

    A shallow embedding of [extractor.cpp] (class [Extractor]) and the
    properties of its rank/suit locator.

    Conventions of the embedding.
    - C++ [int] values are integers of [Z]; every [int] operation of the source
      is written with its 32-bit two's-complement wrap-around ([Int.add],
      [Int.mul], ...), and an integer division by zero is a fault.
    - A [cv::Mat] is its size together with its pixel function: [at_ m i j]
      is the pixel in row [i] (the y coordinate) and column [j] (the x
      coordinate); a colour pixel ([Vec3b]) is a triple of channel values.
    - OpenCV's image-processing routines ([cvtColor], [blur], [Canny],
      [findContours], [approxPolyDP], [boundingRect], [drawContours]) are not
      part of the program: they are the fields of a record [OpenCV] over which
      the development is parametric.  [Mat]'s own operations used by the code
      ([clone], [copyTo] with a mask, the region-of-interest constructor,
      [empty], [Mat::zeros]) are written out.
    - The members [drawing] and [rng] and the method [showResult] only feed the
      preview windows; no value flows from them into [rank], [suit], the
      recorded rank position or the result of [extract], and they are left out
      of the record [Extractor].  [findSubImages] does write them ([drawing]
      at line 80 of every call, both at lines 111-113 and 142-144), so a
      property of what a call leaves unchanged names the members it speaks of.
    - The library routines are taken to return.  An exception they raise of
      their own (as on a matrix without elements) is not a fault of this
      development, which records the two faults of the program's own
      operations.
    - [extractor.h] is not among the sources: the tolerance it declares under
      the name [error] is a parameter of the development, and so is the
      initial value of the recorded rank position.
    Line numbers are those of [extractor.cpp]. *)

From Stdlib Require Import ZArith List Bool Lia.
Import ListNotations.
Local Open Scope Z_scope.

(** * Part I.  The program *)

(** ** Machine integers *)

Module Int.

Definition min_signed : Z := - 2 ^ 31.

Definition max_signed : Z := 2 ^ 31 - 1.

Definition in_range (z : Z) : Prop := min_signed <= z <= max_signed.

(** Reduction of an integer to the 32-bit signed range. *)
Definition wrap (z : Z) : Z := (z + 2 ^ 31) mod 2 ^ 32 - 2 ^ 31.

Definition add (a b : Z) : Z := wrap (a + b).

Definition neg (a : Z) : Z := wrap (- a).

Definition mul (a b : Z) : Z := wrap (a * b).

(** [a / b] of C++ for [b <> 0]: the quotient truncated towards zero. *)
Definition quot (a b : Z) : Z := wrap (Z.quot a b).

End Int.

(** ** Faults

    The two ways in which a run of [findSubImages] can stop without returning:
    an integer division by zero, and a failed size assertion of OpenCV's
    region-of-interest constructor (a [cv::Exception]). *)

Inductive fault : Type :=
| DivisionByZero
| BadRoi.

Inductive result (A : Type) : Type :=
| Ok (a : A)
| Fault (f : fault).

Arguments Ok {A} a.

Arguments Fault {A} f.

Definition bind {A B : Type} (m : result A) (k : A -> result B) : result B :=
  match m with
  | Ok a => k a
  | Fault f => Fault f
  end.

Notation "x <- m ;; k" := (bind m (fun x => k))
  (at level 61, m at next level, right associativity).

Notation "' pat <- m ;; k" := (bind m (fun x => match x with pat => k end))
  (at level 61, pat pattern, m at next level, right associativity).

(** ** Geometry: [cv::Point] and [cv::Rect] *)

Record Point : Type := mkPoint { px : Z; py : Z }.

Record Rect : Type := mkRect { x : Z; y : Z; width : Z; height : Z }.

(** [Rect::tl()] and [Rect::br()]. *)
Definition tl (r : Rect) : Point := mkPoint (x r) (y r).

Definition br (r : Rect) : Point :=
  mkPoint (Int.add (x r) (width r)) (Int.add (y r) (height r)).

(** ** Images *)

Definition Pixel : Type := (Z * Z * Z)%type.

Record Mat : Type := mkMat { rows : Z; cols : Z; at_ : Z -> Z -> Pixel }.

(** The default-constructed [Mat()]. *)
Definition Mat_new : Mat := mkMat 0 0 (fun _ _ => (0, 0, 0)).

(** [Mat::empty()]: no element. *)
Definition empty (m : Mat) : bool := (rows m * cols m =? 0).

(** [Mat::zeros(size, CV_8UC3)]. *)
Definition zeros (nrows ncols : Z) : Mat := mkMat nrows ncols (fun _ _ => (0, 0, 0)).

(** [Mat::clone()]: a deep copy; as a value, the matrix itself. *)
Definition clone (m : Mat) : Mat := mkMat (rows m) (cols m) (at_ m).

(** [src.copyTo(dst, mask)] for a destination of the size of [src], as it is
    at both call sites: every channel whose mask element is non-zero is copied
    from [src], the others keep the value [dst] had. *)
Definition copyChannel (s d m : Z) : Z := if m =? 0 then d else s.

Definition copyPixel (s d m : Pixel) : Pixel :=
  let '(s0, s1, s2) := s in
  let '(d0, d1, d2) := d in
  let '(m0, m1, m2) := m in
  (copyChannel s0 d0 m0, copyChannel s1 d1 m1, copyChannel s2 d2 m2).

Definition copyTo (src dst mask : Mat) : Mat :=
  mkMat (rows src) (cols src)
        (fun i j => copyPixel (at_ src i j) (at_ dst i j) (at_ mask i j)).

(** [Mat(m, roi)] and [m(roi)]: the sub-matrix of [m] under [roi].  The
    constructor asserts
    [0 <= roi.x && 0 <= roi.width && roi.x + roi.width <= m.cols &&
     0 <= roi.y && 0 <= roi.height && roi.y + roi.height <= m.rows],
    the sums being sums of [int]; a sub-matrix without rows or without
    columns is released, and both its sizes are set to 0. *)
Definition roi (m : Mat) (r : Rect) : result Mat :=
  if (0 <=? x r) && (0 <=? width r) && (Int.add (x r) (width r) <=? cols m)
     && (0 <=? y r) && (0 <=? height r) && (Int.add (y r) (height r) <=? rows m)
  then
    if (height r <=? 0) || (width r <=? 0) then Ok Mat_new
    else Ok (mkMat (height r) (width r) (fun i j => at_ m (y r + i) (x r + j)))
  else Fault BadRoi.

(** ** OpenCV

    The library routines the program calls, with the arguments the source
    fixes at the call site left out of their types.  A single-channel matrix
    is a [Mat] whose first channel alone is meaningful. *)

Definition Polygon : Type := list Point.

Record OpenCV : Type := mkOpenCV {
  (** [cvtColor(src, dst, COLOR_BGR2GRAY)] *)
  cvtColor : Mat -> Mat;
  (** [blur(src, dst, Size(3, 3))] *)
  blur : Mat -> Mat;
  (** [Canny(image, edges, threshold1, threshold2)] *)
  Canny : Mat -> Z -> Z -> Mat;
  (** [findContours(image, contours, hierarchy, RETR_LIST, CHAIN_APPROX_NONE)] *)
  findContours : Mat -> list Polygon;
  (** [approxPolyDP(curve, approx, 3, true)] *)
  approxPolyDP : Polygon -> Polygon;
  (** [boundingRect(points)] *)
  boundingRect : Polygon -> Rect;
  (** [drawContours(image, contours, i, Scalar(255), 0)], for the polygon
      [contours[i]] *)
  drawContours : Mat -> Polygon -> Mat
}.

(** [cv::THRESH_OTSU], a flag of [cv::threshold] declared in OpenCV's
    [imgproc.hpp]. *)
Definition THRESH_OTSU : Z := 8.

(** ** The class [Extractor] *)

Record Extractor : Type := mkExtractor {
  enableShowResult : bool;
  src : Mat;
  src_gray : Mat;
  rank : Mat;
  suit : Mat;
  rankBrXPosition : Z;
  rankBrYPosition : Z
}.

Definition set_src (this : Extractor) (m : Mat) : Extractor :=
  mkExtractor (enableShowResult this) m (src_gray this) (rank this) (suit this)
              (rankBrXPosition this) (rankBrYPosition this).

Definition set_src_gray (this : Extractor) (m : Mat) : Extractor :=
  mkExtractor (enableShowResult this) (src this) m (rank this) (suit this)
              (rankBrXPosition this) (rankBrYPosition this).

Definition set_rank (this : Extractor) (m : Mat) : Extractor :=
  mkExtractor (enableShowResult this) (src this) (src_gray this) m (suit this)
              (rankBrXPosition this) (rankBrYPosition this).

Definition set_suit (this : Extractor) (m : Mat) : Extractor :=
  mkExtractor (enableShowResult this) (src this) (src_gray this) (rank this) m
              (rankBrXPosition this) (rankBrYPosition this).

Definition set_rankBrXPosition (this : Extractor) (v : Z) : Extractor :=
  mkExtractor (enableShowResult this) (src this) (src_gray this) (rank this) (suit this)
              v (rankBrYPosition this).

Definition set_rankBrYPosition (this : Extractor) (v : Z) : Extractor :=
  mkExtractor (enableShowResult this) (src this) (src_gray this) (rank this) (suit this)
              (rankBrXPosition this) v.

(** The constructor sets [enableShowResult] alone (its [RNG rng(12345)] is a
    local); the [Mat] members are default-constructed, and the two positions
    get the value [init] of their initialisers in [extractor.h].  Line 118
    tells "no rank found yet" by a negative [rankBrYPosition]; the concrete
    runs below take -1. *)
Definition Extractor_new (enableShowResult : bool) (init : Z) : Extractor :=
  mkExtractor enableShowResult Mat_new Mat_new Mat_new Mat_new init init.

(** [input.rows / 3.5]: a division of doubles whose quotient the [Rect]
    constructor converts to [int] by truncation.  For a row count of [int]
    the rounded quotient of doubles truncates to the truncation of the exact
    quotient [2 * rows / 7]. *)
Definition div3_5 (n : Z) : Z := Z.quot (2 * n) 7.

Section Extractor.

(** The OpenCV implementation linked with the program. *)
Variable cv : OpenCV.

(** The member [error] of [extractor.h] (the spec's ERROR_MARGIN). *)
Variable error : Z.

(** Lines 63-78 of [findSubImages]: the edge map, its contours, their
    polygons and bounding rectangles; [contours_poly[i]] is paired with
    [boundRect[i]]. *)
Definition canny_output (this : Extractor) : Mat :=
  Canny cv (src_gray this) THRESH_OTSU THRESH_OTSU.

Definition contours_poly (this : Extractor) : list Polygon :=
  map (approxPolyDP cv) (findContours cv (canny_output this)).

Definition boundRect (this : Extractor) : list Rect :=
  map (boundingRect cv) (contours_poly this).

Definition contourList (this : Extractor) : list (Polygon * Rect) :=
  combine (contours_poly this) (boundRect this).

(** [-boundRect[i].tl().y + boundRect[i].br().y] and its counterpart in x. *)
Definition boxHeight (r : Rect) : Z := Int.add (Int.neg (py (tl r))) (py (br r)).

Definition boxWidth (r : Rect) : Z := Int.add (Int.neg (px (tl r))) (px (br r)).

(** [height / width]. *)
Definition ratio (h w : Z) : result Z :=
  if w =? 0 then Fault DivisionByZero else Ok (Int.quot h w).

(** The condition of line 94-96: [true] when the loop goes on to the next
    contour.  [||] of C++ evaluates its right operand only when the left one
    is false, so the division is reached only past the area test. *)
Definition rankRejects (this : Extractor) (area : Z) (r : Rect) : result bool :=
  let height := boxHeight r in
  let width := boxWidth r in
  if Int.mul height width <? Int.quot area 10 then Ok true
  else
    q <- ratio height width ;;
    Ok ((q >? 4) || (q <? 1)
        || (px (br r) >? Int.quot (Int.mul 3 (cols (src this))) 4)
        || (py (br r) >? Int.quot (Int.mul 3 (rows (src this))) 4)).

(** The condition of line 129. *)
Definition suitRejects (this : Extractor) (area : Z) (r : Rect) : result bool :=
  let height := boxHeight r in
  let width := boxWidth r in
  if Int.mul height width <? Int.quot area 25 then Ok true
  else
    q <- ratio height width ;;
    Ok ((q >? 4) || (q <? 1)
        || (py (br r) <=? Int.add (rankBrYPosition this) error)
        || (px (br r) >=? Int.add (rankBrXPosition this) (Int.quot (cols (src this)) 6))).

(** Lines 104-108 and again 135-139: the contour is drawn on the mask, the
    source is copied under the mask onto a clone of the source, and the result
    is cropped to the bounding rectangle.  The mask is returned with the
    sub-image: it is the one local both loops write. *)
Definition subImage (source extractMask : Mat) (poly : Polygon) (r : Rect)
  : result (Mat * Mat) :=
  let extractMask := drawContours cv extractMask poly in
  let imageROI := clone source in
  let imageROI := copyTo source imageROI extractMask in
  sub <- roi imageROI r ;;
  Ok (sub, extractMask).

(** The loop of lines 86-116. *)
Fixpoint rankLoop (area : Z) (cs : list (Polygon * Rect))
         (this : Extractor) (extractMask : Mat) : result (Extractor * Mat) :=
  match cs with
  | [] => Ok (this, extractMask)
  | (poly, r) :: rest =>
      skip <- rankRejects this area r ;;
      if skip then rankLoop area rest this extractMask
      else
        let this := set_rankBrYPosition this (py (br r)) in
        let this := set_rankBrXPosition this (px (br r)) in
        '(sub, extractMask) <- subImage (src this) extractMask poly r ;;
        Ok (set_rank this sub, extractMask)
  end.

(** The loop of lines 123-147. *)
Fixpoint suitLoop (area : Z) (cs : list (Polygon * Rect))
         (this : Extractor) (extractMask : Mat) : result (Extractor * Mat) :=
  match cs with
  | [] => Ok (this, extractMask)
  | (poly, r) :: rest =>
      skip <- suitRejects this area r ;;
      if skip then suitLoop area rest this extractMask
      else
        '(sub, extractMask) <- subImage (src this) extractMask poly r ;;
        Ok (set_suit this sub, extractMask)
  end.

(** [findSubImages], lines 80-147, with the final content of its local
    [extractMask]; the polygons and boxes of lines 63-78 are [contourList]. *)
Definition findSubImages_run (this : Extractor) : result (Extractor * Mat) :=
  let cs := contourList this in
  let extractMask := zeros (rows (src this)) (cols (src this)) in
  let area := Int.mul (cols (src this)) (rows (src this)) in
  '(this, extractMask) <- rankLoop area cs this extractMask ;;
  if rankBrYPosition this <? 0 then Ok (this, extractMask)
  else suitLoop area cs this extractMask.

(** [findSubImages] as the caller sees it: the members of the object. *)
Definition findSubImages (this : Extractor) : result Extractor :=
  '(this, _) <- findSubImages_run this ;;
  Ok this.

(** Line 149: the test under which [showResult] opens its four windows
    (source, contours, rank, suit) and waits for a key. *)
Definition showsResult (this : Extractor) : bool :=
  negb (empty (rank this)) && negb (empty (suit this)) && enableShowResult this.

(** Whether a run of [findSubImages] calls [showResult] (line 150); the
    return of line 120 leaves before the test of line 149. *)
Definition findSubImages_shows (this : Extractor) : result bool :=
  let cs := contourList this in
  let extractMask := zeros (rows (src this)) (cols (src this)) in
  let area := Int.mul (cols (src this)) (rows (src this)) in
  '(this, extractMask) <- rankLoop area cs this extractMask ;;
  if rankBrYPosition this <? 0 then Ok false
  else
    '(this, _) <- suitLoop area cs this extractMask ;;
    Ok (showsResult this).

(** Line 31: [Mat(input, Rect(0, 0, input.cols / 4, input.rows / 3.5))]. *)
Definition region (input : Mat) : result Mat :=
  roi input (mkRect 0 0 (Int.quot (cols input) 4) (div3_5 (rows input))).

(** [extract], lines 30-36: the new state of the object and the result. *)
Definition extract (this : Extractor) (input : Mat) : result (Extractor * bool) :=
  m <- region input ;;
  let this := set_src this m in
  let this := set_src_gray this (cvtColor cv (src this)) in
  let this := set_src_gray this (blur cv (src_gray this)) in
  this <- findSubImages this ;;
  Ok (this, negb (empty (rank this) || empty (suit this))).

(** Whether a call of [extract] opens the preview windows. *)
Definition extract_shows (this : Extractor) (input : Mat) : result bool :=
  m <- region input ;;
  let this := set_src this m in
  let this := set_src_gray this (cvtColor cv (src this)) in
  let this := set_src_gray this (blur cv (src_gray this)) in
  findSubImages_shows this.

End Extractor.

(** * Part II.  The vocabulary of the properties *)

(** ** The filters as the specification words them

    The geometric conditions over the integers, without wrap-around and
    without evaluation order: the region is [W] pixels wide and [H] high, a
    contour's box has its corner at [(x r, y r)] and its bottom-right corner
    at [(x r + width r, y r + height r)]. *)

Definition rankFilter (W H : Z) (r : Rect) : bool :=
  (Z.quot (W * H) 10 <=? height r * width r)
  && (1 <=? Z.quot (height r) (width r))
  && (Z.quot (height r) (width r) <=? 4)
  && (x r + width r <=? Z.quot (3 * W) 4)
  && (y r + height r <=? Z.quot (3 * H) 4).

Definition suitFilter (margin W H rankX rankY : Z) (r : Rect) : bool :=
  (Z.quot (W * H) 25 <=? height r * width r)
  && (1 <=? Z.quot (height r) (width r))
  && (Z.quot (height r) (width r) <=? 4)
  && (rankY + margin <? y r + height r)
  && (x r + width r <? rankX + Z.quot W 6).

(** ** Sub-images *)

(** [sub] is [m] cropped to [r]: the size of [r], and at every position the
    pixel of [m] at that position of [r]. *)
Definition cropOf (m : Mat) (r : Rect) (sub : Mat) : Prop :=
  rows sub = height r /\ cols sub = width r /\
  forall i j, at_ sub i j = at_ m (y r + i) (x r + j).

(** Two matrices of the same size and pixels. *)
Definition sameMat (a b : Mat) : Prop :=
  rows a = rows b /\ cols a = cols b /\ forall i j, at_ a i j = at_ b i j.

(** ** Well-formed inputs

    [fits m]: the sizes of [m] are sizes, and the products the code forms from
    them are representable.  [inside m r]: [r] is a non-degenerate box inside
    [m], as the bounding rectangle of a contour traced in [m] is. *)

Definition fits (m : Mat) : Prop :=
  0 <= cols m /\ 0 <= rows m /\
  Int.in_range (cols m * rows m) /\ Int.in_range (3 * cols m) /\ Int.in_range (3 * rows m).

Definition inside (m : Mat) (r : Rect) : Prop :=
  0 <= x r /\ 0 <= y r /\ 0 < width r /\ 0 < height r /\
  x r + width r <= cols m /\ y r + height r <= rows m.

(** Every contour of the list has its box inside [m]. *)
Definition boxesInside (m : Mat) (cs : list (Polygon * Rect)) : Prop :=
  Forall (fun c => inside m (snd c)) cs.

(** The recorded rank position enters the suit test through two sums; they are
    representable when the position comes from a box of the region and the
    tolerance is small against the region's height. *)
Definition positionFits (margin : Z) (this : Extractor) : Prop :=
  Int.in_range (rankBrYPosition this + margin) /\
  Int.in_range (rankBrXPosition this + Z.quot (cols (src this)) 6).

(** The tolerance is an [int], and so is its sum with any row of [m]. *)
Definition marginFits (margin : Z) (m : Mat) : Prop :=
  Int.in_range margin /\ Int.in_range (rows m + margin).

(** ** The call of [extract] *)

(** The corner region of the card: [[0, cols/4) x [0, rows/3.5)], and the
    empty matrix when that has no row or no column. *)
Definition regionOf (input : Mat) : Mat :=
  if (div3_5 (rows input) <=? 0) || (Z.quot (cols input) 4 <=? 0) then Mat_new
  else mkMat (div3_5 (rows input)) (Z.quot (cols input) 4)
             (fun i j => at_ input (0 + i) (0 + j)).

(** A matrix's sizes are non-negative [int]s. *)
Definition wfInput (input : Mat) : Prop :=
  0 <= rows input /\ 0 <= cols input /\ Int.in_range (cols input).

(** The state in which [extract] calls [findSubImages]. *)
Definition entered (cv : OpenCV) (this : Extractor) (input : Mat) : Extractor :=
  let this := set_src this (regionOf input) in
  let this := set_src_gray this (cvtColor cv (src this)) in
  set_src_gray this (blur cv (src_gray this)).

(** The contours of the card's corner region with their bounding rectangles,
    in the order the tracing yields them. *)
Definition contoursIn (cv : OpenCV) (input : Mat) : list (Polygon * Rect) :=
  let src_gray := blur cv (cvtColor cv (regionOf input)) in
  let polys := map (approxPolyDP cv)
                   (findContours cv (Canny cv src_gray THRESH_OTSU THRESH_OTSU)) in
  combine polys (map (boundingRect cv) polys).

(** What a call needs for no product of [int]s to overflow and no
    assertion of OpenCV to fail: an image with sizes, a region whose area is
    representable, and contours boxed inside the region. *)
Definition wellFormedRegion (cv : OpenCV) (input : Mat) : Prop :=
  wfInput input /\ fits (regionOf input) /\
  boxesInside (regionOf input) (contoursIn cv input).

(** For the sums of the suit test to be representable as well: a tolerance
    and a recorded position of moderate size. *)
Definition wellFormed (cv : OpenCV) (error : Z) (this : Extractor) (input : Mat) : Prop :=
  wellFormedRegion cv input /\
  marginFits error (regionOf input) /\
  positionFits error (entered cv this input).

(** An object on which no search has taken a contour yet: both sub-images
    empty and the recorded position negative, as on a new object. *)
Definition unused (this : Extractor) : Prop :=
  empty (rank this) = true /\ empty (suit this) = true /\ rankBrYPosition this < 0.

(** The states an object goes through from its construction: no contour
    taken yet, or a rank taken at some call and the recorded position no
    longer negative. *)
Definition consistent (this : Extractor) : Prop :=
  (rankBrYPosition this < 0 /\ empty (rank this) = true /\ empty (suit this) = true)
  \/ (0 <= rankBrYPosition this /\ empty (rank this) = false).


(** No contour of the list has a box whose width, as the loops compute it,
    is zero. *)
Definition noFlatBox (cs : list (Polygon * Rect)) : Prop :=
  Forall (fun c => boxWidth (snd c) <> 0) cs.

(** The size assertion of the region-of-interest constructor fails for [r] on
    a matrix of the size of [m]: one of its six conjuncts does not hold. *)
Definition outside (m : Mat) (r : Rect) : Prop :=
  x r < 0 \/ width r < 0 \/ cols m < Int.add (x r) (width r) \/
  y r < 0 \/ height r < 0 \/ rows m < Int.add (y r) (height r).

(** The object after the rank search has taken the contour boxed [r]. *)
Definition rankFound (this : Extractor) (r : Rect) (sub : Mat) : Extractor :=
  set_rank (set_rankBrXPosition (set_rankBrYPosition this (y r + height r))
                                (x r + width r)) sub.

(** What a caller can observe of an object: the recorded corner, and the
    size (rows, columns) of [rank] and of [suit]. *)
Definition observe (this : Extractor) : (Z * Z) * (Z * Z) * (Z * Z) :=
  ((rankBrXPosition this, rankBrYPosition this),
   (rows (rank this), cols (rank this)),
   (rows (suit this), cols (suit this))).

(** * Part III.  A test double of OpenCV and test scenes

    The concrete runs link the program with a stand-in for OpenCV: colour
    conversion, smoothing and edge detection hand the image on, the tracing
    reports the polygons [contours] of the scene, [boundingRect] is the
    up-right box of the points (sizes counted in pixels, so one more than the
    coordinate difference), and [drawContours] marks the vertices of the
    polygon with [Scalar(255)].  A run of several calls gives each call the
    stand-in with the contours of its picture. *)

Definition boundingRectOf (pts : Polygon) : Rect :=
  match pts with
  | [] => mkRect 0 0 0 0
  | p :: rest =>
      let xmin := fold_left Z.min (map px rest) (px p) in
      let xmax := fold_left Z.max (map px rest) (px p) in
      let ymin := fold_left Z.min (map py rest) (py p) in
      let ymax := fold_left Z.max (map py rest) (py p) in
      mkRect xmin ymin (xmax - xmin + 1) (ymax - ymin + 1)
  end.

Definition markVertices (m : Mat) (poly : Polygon) : Mat :=
  mkMat (rows m) (cols m)
        (fun i j => if existsb (fun p => (py p =? i) && (px p =? j)) poly
                    then (255, 0, 0) else at_ m i j).

Definition cvStub (contours : list Polygon) : OpenCV :=
  mkOpenCV (fun m => m) (fun m => m) (fun m _ _ => m)
           (fun _ => contours) (fun poly => poly) boundingRectOf markVertices.

(** The rectangle with corners [(x0, y0)] and [(x1 - 1, y1 - 1)]: its
    bounding box runs from [(x0, y0)] to [(x1, y1)]. *)
Definition box (x0 y0 x1 y1 : Z) : Polygon :=
  [mkPoint x0 y0; mkPoint (x1 - 1) y0; mkPoint (x1 - 1) (y1 - 1); mkPoint x0 (y1 - 1)].

(** A picture of [ncols] by [nrows] pixels whose pixels tell their place. *)
Definition picture (ncols nrows : Z) : Mat :=
  mkMat nrows ncols (fun i j => (i mod 256, j mod 256, 255)).

(** A card of 400 by 560 pixels; its corner region is 100 wide and 160 high,
    so a rank needs an area of 1600 and must end left of 75 and above 120, and
    a suit needs an area of 640. *)
Definition card : Mat := picture 400 560.

(** A rank glyph boxed (10,10)-(50,80), a suit glyph boxed (12,90)-(44,140)
    below it, and a triangle with the box of the rank glyph. *)
Definition glyphA : Polygon := box 10 10 50 80.

Definition glyphB : Polygon := box 12 90 44 140.

Definition triangle : Polygon := [mkPoint 10 10; mkPoint 49 79; mkPoint 10 79].

(** The value the concrete runs give the tolerance [error]. *)
Definition margin : Z := 5.

(** A second picture, a suit-sized glyph that is too small for a rank, and a
    picture of 4 by 4 pixels. *)
Definition card2 : Mat := mkMat 560 400 (fun i j => (j mod 256, i mod 256, 0)).

Definition glyphC : Polygon := box 20 95 50 140.

Definition speck : Mat := picture 4 4.




(** States at the start of the suit search of the card: one as the rank
    search leaves it, and one with the same recorded corner and an empty
    [rank]; and an object as a successful call on the card leaves it. *)
Definition afterRankA : Extractor :=
  mkExtractor false (regionOf card) (regionOf card) (picture 40 70) Mat_new 50 80.

Definition cornerOnly : Extractor :=
  mkExtractor false (regionOf card) (regionOf card) Mat_new Mat_new 50 80.

Definition afterSuccess : Extractor :=
  mkExtractor false (regionOf card) (regionOf card) (picture 40 70) (picture 32 50) 50 80.

(** A glyph whose box starts left of the region: (-5,10)-(35,80). *)
Definition glyphOut : Polygon := box (-5) 10 35 80.

(** ** Tactics *)

Ltac int_range := unfold Int.in_range, Int.min_signed, Int.max_signed in *.

Ltac zcases :=
  rewrite ?Z.gtb_ltb, ?Z.geb_leb;
  repeat match goal with
         | |- context [?a <? ?b] => destruct (Z.ltb_spec a b)
         | |- context [?a <=? ?b] => destruct (Z.leb_spec a b)
         | |- context [?a =? ?b] => destruct (Z.eqb_spec a b)
         end;
  cbn [negb andb orb]; try reflexivity; try lia.

(** Well-formedness of a concrete scene, by evaluation. *)

Ltac concrete :=
  repeat match goal with
         | |- _ /\ _ => split
         | |- Forall _ _ => constructor
         | |- wellFormed _ _ _ _ => unfold wellFormed
         | |- wellFormedRegion _ _ => unfold wellFormedRegion
         | |- wfInput _ => unfold wfInput
         | |- fits _ => unfold fits
         | |- boxesInside _ _ => unfold boxesInside; cbn
         | |- inside _ _ => unfold inside
         | |- marginFits _ _ => unfold marginFits
         | |- positionFits _ _ => unfold positionFits
         | |- unused _ => unfold unused
         | |- Int.in_range _ => unfold Int.in_range
         end;
  try (vm_compute; first [reflexivity | discriminate | intro; discriminate]).

(** * Part IV.  The program on well-formed input *)

(** ** Integers *)

Lemma Int_wrap_in_range (z : Z) : Int.in_range z -> Int.wrap z = z.
Proof.
  unfold Int.in_range, Int.wrap, Int.min_signed, Int.max_signed. intros H.
  rewrite Z.mod_small; lia.
Qed.

Lemma Int_wrap_range (z : Z) : Int.in_range (Int.wrap z).
Proof.
  unfold Int.in_range, Int.wrap, Int.min_signed, Int.max_signed.
  pose proof (Z.mod_pos_bound (z + 2 ^ 31) (2 ^ 32) ltac:(lia)). lia.
Qed.

Lemma quot_bounds (a b : Z) : 0 <= a -> 0 < b -> 0 <= Z.quot a b <= a.
Proof.
  intros Ha Hb. split.
  - apply Z.quot_pos; lia.
  - destruct (Z.eq_dec a 0) as [->|Hne].
    + rewrite Z.quot_0_l; lia.
    + destruct (Z.eq_dec b 1) as [->|Hb1].
      * rewrite Z.quot_1_r. lia.
      * pose proof (Z.quot_lt a b ltac:(lia) ltac:(lia)). lia.
Qed.

Lemma Int_quot_nonneg (a b : Z) :
  0 <= a -> Int.in_range a -> 0 < b -> Int.quot a b = Z.quot a b.
Proof.
  intros Ha Hr Hb. unfold Int.quot. apply Int_wrap_in_range.
  pose proof (quot_bounds a b Ha Hb). int_range. lia.
Qed.

Lemma div3_5_bounds (n : Z) : 0 <= n -> 0 <= div3_5 n <= n.
Proof.
  intros Hn. unfold div3_5.
  pose proof (Z.quot_pos (2 * n) 7 ltac:(lia) ltac:(lia)).
  rewrite Z.quot_div_nonneg in * by lia.
  pose proof (Z.div_le_upper_bound (2 * n) 7 n ltac:(lia) ltac:(lia)). lia.
Qed.

(** ** The tests of the two loops *)

Lemma inside_dims (m : Mat) (r : Rect) :
  fits m -> inside m r ->
  Int.in_range (x r + width r) /\ Int.in_range (y r + height r) /\
  Int.in_range (height r * width r) /\ height r * width r <= cols m * rows m /\
  Int.in_range (- x r) /\ Int.in_range (- y r) /\
  Int.in_range (width r) /\ Int.in_range (height r).
Proof.
  unfold fits, inside. intros (Hc & Hr & Ha & H3c & H3r) (Hx & Hy & Hw & Hh & Hxw & Hyh).
  assert (Hprod : height r * width r <= cols m * rows m) by nia.
  assert (0 < height r * width r) by nia.
  int_range. repeat split; lia.
Qed.

Lemma br_inside (m : Mat) (r : Rect) :
  fits m -> inside m r ->
  px (br r) = x r + width r /\ py (br r) = y r + height r.
Proof.
  intros Hf Hi. destruct (inside_dims m r Hf Hi) as (Hx & Hy & _).
  unfold br, Int.add; cbn [px py]. now rewrite !Int_wrap_in_range.
Qed.

Lemma box_inside (m : Mat) (r : Rect) :
  fits m -> inside m r -> boxHeight r = height r /\ boxWidth r = width r.
Proof.
  intros Hf Hi. destruct (br_inside m r Hf Hi) as [Hbx Hby].
  destruct (inside_dims m r Hf Hi) as (_ & _ & _ & _ & Hnx & Hny & Hw & Hh).
  unfold boxHeight, boxWidth. rewrite Hbx, Hby. cbn [tl px py].
  unfold Int.add, Int.neg. rewrite (Int_wrap_in_range (- x r)), (Int_wrap_in_range (- y r)) by assumption.
  replace (- y r + (y r + height r)) with (height r) by ring.
  replace (- x r + (x r + width r)) with (width r) by ring.
  now rewrite !Int_wrap_in_range.
Qed.

Lemma area_fits (m : Mat) : fits m -> Int.mul (cols m) (rows m) = cols m * rows m.
Proof. intros (_ & _ & Ha & _). now apply Int_wrap_in_range. Qed.

Lemma three_quarters (n : Z) :
  0 <= n -> Int.in_range (3 * n) -> Int.quot (Int.mul 3 n) 4 = Z.quot (3 * n) 4.
Proof.
  intros Hn Hr. unfold Int.mul. rewrite Int_wrap_in_range by assumption.
  apply Int_quot_nonneg; lia || assumption.
Qed.

Lemma ratio_inside (m : Mat) (r : Rect) :
  fits m -> inside m r -> ratio (height r) (width r) = Ok (Z.quot (height r) (width r)).
Proof.
  intros Hf Hi. pose proof Hi as (_ & _ & Hw & Hh & _).
  destruct (inside_dims m r Hf Hi) as (_ & _ & _ & _ & _ & _ & _ & Hhr).
  unfold ratio. destruct (Z.eqb_spec (width r) 0); [lia|].
  now rewrite Int_quot_nonneg by (lia || assumption).
Qed.

(** On a box inside the region the test of the rank loop is the negation of
    [rankFilter]: no operation wraps and the division is defined. *)
Lemma rankRejects_inside (this : Extractor) (r : Rect) :
  fits (src this) -> inside (src this) r ->
  rankRejects this (Int.mul (cols (src this)) (rows (src this))) r
  = Ok (negb (rankFilter (cols (src this)) (rows (src this)) r)).
Proof.
  intros Hf Hi. unfold rankRejects, rankFilter.
  destruct (box_inside _ _ Hf Hi) as [-> ->].
  destruct (br_inside _ _ Hf Hi) as [-> ->].
  destruct (inside_dims _ _ Hf Hi) as (_ & _ & Hhw & Hle & _).
  pose proof Hf as (Hc & Hr & Ha & H3c & H3r).
  rewrite area_fits by assumption.
  unfold Int.mul at 1. rewrite (Int_wrap_in_range (height r * width r)) by assumption.
  rewrite (Int_quot_nonneg (cols (src this) * rows (src this)) 10) by (nia || assumption).
  rewrite !three_quarters by assumption.
  rewrite (ratio_inside _ _ Hf Hi). cbn [bind].
  zcases.
Qed.

Lemma suitRejects_inside (margin : Z) (this : Extractor) (r : Rect) :
  fits (src this) -> inside (src this) r -> positionFits margin this ->
  suitRejects margin this (Int.mul (cols (src this)) (rows (src this))) r
  = Ok (negb (suitFilter margin (cols (src this)) (rows (src this))
                         (rankBrXPosition this) (rankBrYPosition this) r)).
Proof.
  intros Hf Hi [Hpy Hpx]. unfold suitRejects, suitFilter.
  destruct (box_inside _ _ Hf Hi) as [-> ->].
  destruct (br_inside _ _ Hf Hi) as [-> ->].
  destruct (inside_dims _ _ Hf Hi) as (_ & _ & Hhw & Hle & _).
  pose proof Hf as (Hc & Hr & Ha & H3c & H3r).
  pose proof Hi as (_ & _ & Hw & Hh & Hxw & _).
  rewrite area_fits by assumption.
  unfold Int.mul at 1. rewrite (Int_wrap_in_range (height r * width r)) by assumption.
  rewrite (Int_quot_nonneg (cols (src this) * rows (src this)) 25) by (nia || assumption).
  rewrite (Int_quot_nonneg (cols (src this)) 6) by (try lia; int_range; lia).
  unfold Int.add. rewrite !Int_wrap_in_range by assumption.
  rewrite (ratio_inside _ _ Hf Hi). cbn [bind].
  zcases.
Qed.

Lemma corner_positionFits (error : Z) (m : Mat) (r : Rect) :
  fits m -> inside m r -> marginFits error m ->
  Int.in_range (y r + height r + error) /\
  Int.in_range (x r + width r + Z.quot (cols m) 6).
Proof.
  intros (Hc & Hr & Ha & H3c & H3r) (Hx & Hy & Hw & Hh & Hxw & Hyh) [He Hre].
  pose proof (quot_bounds (cols m) 6 Hc ltac:(lia)).
  int_range. lia.
Qed.

(** ** The sub-image of a contour *)

Lemma copyPixel_same (p m : Pixel) : copyPixel p p m = p.
Proof.
  destruct p as [[p0 p1] p2], m as [[m0 m1] m2]. unfold copyPixel, copyChannel.
  destruct (m0 =? 0), (m1 =? 0), (m2 =? 0); reflexivity.
Qed.

(** Copying a matrix onto its own clone changes no pixel, whatever the mask. *)
Lemma copyTo_clone (m mask : Mat) (i j : Z) :
  at_ (copyTo m (clone m) mask) i j = at_ m i j.
Proof. cbn. apply copyPixel_same. Qed.

Lemma Int_wrap_le (z : Z) : 0 <= z -> Int.wrap z <= z.
Proof.
  intros Hz. unfold Int.wrap.
  pose proof (Z.mod_le (z + 2 ^ 31) (2 ^ 32) ltac:(lia) ltac:(lia)). lia.
Qed.

(** The assertion of the region-of-interest constructor holds of a
    rectangle that lies inside the matrix, whether or not its corner sums
    are representable. *)
Lemma roi_assertion (m : Mat) (r : Rect) :
  0 <= x r -> 0 <= y r -> 0 <= width r -> 0 <= height r ->
  x r + width r <= cols m -> y r + height r <= rows m ->
  (0 <=? x r) && (0 <=? width r) && (Int.add (x r) (width r) <=? cols m)
  && (0 <=? y r) && (0 <=? height r) && (Int.add (y r) (height r) <=? rows m) = true.
Proof.
  intros. unfold Int.add.
  pose proof (Int_wrap_le (x r + width r) ltac:(lia)).
  pose proof (Int_wrap_le (y r + height r) ltac:(lia)).
  repeat match goal with
         | |- context [?a <=? ?b] => destruct (Z.leb_spec a b); [|lia]
         end.
  reflexivity.
Qed.

Lemma roi_inside (m : Mat) (r : Rect) :
  0 <= x r -> 0 <= y r -> 0 < width r -> 0 < height r ->
  x r + width r <= cols m -> y r + height r <= rows m ->
  roi m r = Ok (mkMat (height r) (width r) (fun i j => at_ m (y r + i) (x r + j))).
Proof.
  intros. unfold roi. rewrite roi_assertion by lia.
  destruct (Z.leb_spec (height r) 0); [lia|]. destruct (Z.leb_spec (width r) 0); [lia|].
  reflexivity.
Qed.

Lemma cropOf_sameMat (m : Mat) (r : Rect) (a b : Mat) :
  cropOf m r a -> cropOf m r b -> sameMat a b.
Proof.
  intros (Ha1 & Ha2 & Ha3) (Hb1 & Hb2 & Hb3).
  split; [congruence|]. split; [congruence|].
  intros i j. now rewrite Ha3, Hb3.
Qed.

Lemma cropOf_nonempty (m : Mat) (r : Rect) (sub : Mat) :
  inside m r -> cropOf m r sub -> empty sub = false.
Proof.
  intros (_ & _ & Hw & Hh & _) (Hr & Hc & _). unfold empty. rewrite Hr, Hc.
  apply Z.eqb_neq. nia.
Qed.

Lemma sameMat_refl (m : Mat) : sameMat m m.
Proof. repeat split. Qed.

Lemma sameMat_empty (a b : Mat) : sameMat a b -> empty a = empty b.
Proof. intros (Hr & Hc & _). unfold empty. now rewrite Hr, Hc. Qed.

Section SubImage.

Variable cv : OpenCV.

(** The sub-image is the source cropped to the bounding rectangle, for every
    mask and every polygon; the mask comes back with the polygon drawn on it. *)
Lemma subImage_inside (source mask : Mat) (poly : Polygon) (r : Rect) :
  inside source r ->
  exists sub, subImage cv source mask poly r = Ok (sub, drawContours cv mask poly)
              /\ cropOf source r sub.
Proof.
  intros (Hx & Hy & Hw & Hh & Hxw & Hyh). unfold subImage.
  rewrite roi_inside by (cbn [copyTo rows cols]; lia).
  eexists. split; [reflexivity|].
  repeat split. intros i j. cbn [at_]. apply copyTo_clone.
Qed.

End SubImage.

(** ** The two loops as first-match searches *)

Lemma find_inside (m : Mat) (f : Polygon * Rect -> bool) (cs : list (Polygon * Rect))
      (poly : Polygon) (r : Rect) :
  boxesInside m cs -> find f cs = Some (poly, r) -> inside m r.
Proof.
  intros Hin Hfind. apply find_some in Hfind as [Hmem _].
  unfold boxesInside in Hin. rewrite Forall_forall in Hin. exact (Hin _ Hmem).
Qed.



Section Loops.

Variable cv : OpenCV.

Variable error : Z.

Lemma rankLoop_find (cs : list (Polygon * Rect)) (this : Extractor) (mask : Mat) :
  fits (src this) -> boxesInside (src this) cs ->
  match find (fun c => rankFilter (cols (src this)) (rows (src this)) (snd c)) cs with
  | Some (poly, r) =>
      exists sub, cropOf (src this) r sub /\
        rankLoop cv (Int.mul (cols (src this)) (rows (src this))) cs this mask
        = Ok (rankFound this r sub, drawContours cv mask poly)
  | None =>
      rankLoop cv (Int.mul (cols (src this)) (rows (src this))) cs this mask
      = Ok (this, mask)
  end.
Proof.
  intros Hf Hin. induction Hin as [|[poly r] rest Hr Hrest IH]; [reflexivity|].
  cbn [find snd rankLoop]. cbn [snd] in Hr.
  rewrite (rankRejects_inside this r Hf Hr). cbn [bind].
  destruct (rankFilter (cols (src this)) (rows (src this)) r); cbn [negb].
  - destruct (br_inside _ _ Hf Hr) as [-> ->].
    destruct (subImage_inside cv (src this) mask poly r Hr) as (sub & Hsub & Hcrop).
    exists sub. split; [assumption|].
    cbn [set_rankBrXPosition set_rankBrYPosition src]. rewrite Hsub. reflexivity.
  - exact IH.
Qed.

Lemma suitLoop_find (cs : list (Polygon * Rect)) (this : Extractor) (mask : Mat) :
  fits (src this) -> boxesInside (src this) cs -> positionFits error this ->
  match find (fun c => suitFilter error (cols (src this)) (rows (src this))
                                  (rankBrXPosition this) (rankBrYPosition this) (snd c)) cs with
  | Some (poly, r) =>
      exists sub, cropOf (src this) r sub /\
        suitLoop cv error (Int.mul (cols (src this)) (rows (src this))) cs this mask
        = Ok (set_suit this sub, drawContours cv mask poly)
  | None =>
      suitLoop cv error (Int.mul (cols (src this)) (rows (src this))) cs this mask
      = Ok (this, mask)
  end.
Proof.
  intros Hf Hin Hp. induction Hin as [|[poly r] rest Hr Hrest IH]; [reflexivity|].
  cbn [find snd suitLoop]. cbn [snd] in Hr.
  rewrite (suitRejects_inside error this r Hf Hr Hp). cbn [bind].
  destruct (suitFilter error _ _ _ _ r); cbn [negb].
  - destruct (subImage_inside cv (src this) mask poly r Hr) as (sub & Hsub & Hcrop).
    exists sub. split; [assumption|]. rewrite Hsub. reflexivity.
  - exact IH.
Qed.

(** The suit test is defined on every box inside the region, whatever the
    recorded position and the tolerance. *)
Lemma suitRejects_total (this : Extractor) (area : Z) (r : Rect) :
  fits (src this) -> inside (src this) r ->
  exists b, suitRejects error this area r = Ok b.
Proof.
  intros Hf Hi. unfold suitRejects.
  destruct (box_inside _ _ Hf Hi) as [-> ->].
  rewrite (ratio_inside _ _ Hf Hi). cbn [bind].
  destruct (_ <? _); eexists; reflexivity.
Qed.

(** The suit loop returns; it writes no member but [suit], and [suit] is
    afterwards what it was or the region cropped to the box of one of the
    contours. *)
Lemma suitLoop_frame (area : Z) (cs : list (Polygon * Rect)) (this : Extractor) (mask : Mat) :
  fits (src this) -> boxesInside (src this) cs ->
  exists this' mask',
    suitLoop cv error area cs this mask = Ok (this', mask') /\
    src this' = src this /\ rank this' = rank this /\
    rankBrXPosition this' = rankBrXPosition this /\
    rankBrYPosition this' = rankBrYPosition this /\
    (suit this' = suit this \/
     exists poly r, In (poly, r) cs /\ cropOf (src this) r (suit this')).
Proof.
  intros Hf Hin. induction Hin as [|[poly r] rest Hr Hrest IH].
  - exists this, mask. cbn. auto 10.
  - cbn [snd] in Hr. cbn [suitLoop].
    destruct (suitRejects_total this area r Hf Hr) as [b ->]. cbn [bind].
    destruct b.
    + destruct IH as (this' & mask' & Hrun & Hs & Hrk & Hx & Hy & Hsuit).
      exists this', mask'. repeat (split; [assumption|]).
      destruct Hsuit as [Hsame|(p & r' & Hmem & Hcrop)]; [now left|].
      right. exists p, r'. split; [now right|assumption].
    + destruct (subImage_inside cv (src this) mask poly r Hr) as (sub & -> & Hcrop).
      cbn [bind]. do 2 eexists. split; [reflexivity|]. cbn.
      repeat (split; [reflexivity|]). right. exists poly, r. split; [now left|assumption].
Qed.

End Loops.

(** ** [findSubImages] *)

Section FindSubImages.

Variable cv : OpenCV.

Variable error : Z.

Lemma rankFound_positionFits (this : Extractor) (r : Rect) (sub : Mat) :
  fits (src this) -> inside (src this) r -> marginFits error (src this) ->
  positionFits error (rankFound this r sub).
Proof.
  intros (Hc & Hr & Ha & H3c & H3r) (Hx & Hy & Hw & Hh & Hxw & Hyh) [He Hre].
  unfold positionFits. cbn.
  pose proof (quot_bounds (cols (src this)) 6 Hc ltac:(lia)).
  int_range. lia.
Qed.

(** The whole of lines 80-147: which contours the two searches select, what
    the fields hold afterwards and what is left on the mask.  The recorded
    position of an earlier call matters only where the suit search reads it:
    when no rank is found and the position is not negative. *)
Lemma findSubImages_run_spec (this : Extractor) :
  let cs := contourList cv this in
  let W := cols (src this) in
  let H := rows (src this) in
  let blank := zeros H W in
  fits (src this) -> boxesInside (src this) cs ->
  marginFits error (src this) ->
  (find (fun c => rankFilter W H (snd c)) cs = None ->
   0 <= rankBrYPosition this -> positionFits error this) ->
  match find (fun c => rankFilter W H (snd c)) cs with
  | Some (p1, r1) =>
      exists sub1, cropOf (src this) r1 sub1 /\
        match find (fun c => suitFilter error W H (x r1 + width r1) (y r1 + height r1) (snd c)) cs with
        | Some (p2, r2) =>
            exists sub2, cropOf (src this) r2 sub2 /\
              findSubImages_run cv error this
              = Ok (set_suit (rankFound this r1 sub1) sub2,
                    drawContours cv (drawContours cv blank p1) p2)
        | None =>
            findSubImages_run cv error this
            = Ok (rankFound this r1 sub1, drawContours cv blank p1)
        end
  | None =>
      if rankBrYPosition this <? 0
      then findSubImages_run cv error this = Ok (this, blank)
      else
        match find (fun c => suitFilter error W H (rankBrXPosition this)
                                        (rankBrYPosition this) (snd c)) cs with
        | Some (p2, r2) =>
            exists sub2, cropOf (src this) r2 sub2 /\
              findSubImages_run cv error this
              = Ok (set_suit this sub2, drawContours cv blank p2)
        | None => findSubImages_run cv error this = Ok (this, blank)
        end
  end.
Proof.
  intros cs W H blank Hf Hin Hm Hp. unfold findSubImages_run. fold cs W H blank.
  pose proof (rankLoop_find cv cs this blank Hf Hin) as Hrank. fold W H in Hrank.
  destruct (find (fun c => rankFilter W H (snd c)) cs) as [[p1 r1]|] eqn:Efind.
  - destruct Hrank as (sub1 & Hcrop1 & ->). exists sub1. split; [assumption|].
    cbn [bind]. pose proof (find_inside _ _ _ _ _ Hin Efind) as Hi1.
    assert (Hpos : (rankBrYPosition (rankFound this r1 sub1) <? 0) = false).
    { cbn. destruct Hi1 as (_ & ? & _ & ? & _). apply Z.ltb_ge. lia. }
    rewrite Hpos.
    pose proof (suitLoop_find cv error cs (rankFound this r1 sub1)
                  (drawContours cv blank p1) Hf Hin
                  (rankFound_positionFits this r1 sub1 Hf Hi1 Hm)) as Hsuit.
    cbn [rankFound set_rank set_rankBrXPosition set_rankBrYPosition src
         rankBrXPosition rankBrYPosition] in Hsuit.
    fold W H in Hsuit. fold (rankFound this r1 sub1) in Hsuit.
    exact Hsuit.
  - rewrite Hrank. cbn [bind].
    destruct (Z.ltb_spec (rankBrYPosition this) 0) as [Hneg|Hpos]; [reflexivity|].
    pose proof (suitLoop_find cv error cs this blank Hf Hin (Hp eq_refl Hpos)) as Hsuit.
    fold W H in Hsuit. exact Hsuit.
Qed.

(** The rank search alone needs no bound on the tolerance or on the recorded
    position: the run returns, the rank members are those of the first match,
    and the suit is what it was or a crop of the region. *)
Lemma findSubImages_run_rank (this : Extractor) :
  let cs := contourList cv this in
  let W := cols (src this) in
  let H := rows (src this) in
  fits (src this) -> boxesInside (src this) cs ->
  exists this' mask',
    findSubImages_run cv error this = Ok (this', mask') /\
    (suit this' = suit this \/
     exists poly r, In (poly, r) cs /\ cropOf (src this) r (suit this')) /\
    match find (fun c => rankFilter W H (snd c)) cs with
    | Some (_, r1) =>
        rankBrXPosition this' = x r1 + width r1 /\
        rankBrYPosition this' = y r1 + height r1 /\
        cropOf (src this) r1 (rank this')
    | None =>
        rank this' = rank this /\
        rankBrXPosition this' = rankBrXPosition this /\
        rankBrYPosition this' = rankBrYPosition this
    end.
Proof.
  intros cs W H Hf Hin. unfold findSubImages_run. fold cs W H.
  pose proof (rankLoop_find cv cs this (zeros H W) Hf Hin) as Hrank. fold W H in Hrank.
  destruct (find (fun c => rankFilter W H (snd c)) cs) as [[p1 r1]|].
  - destruct Hrank as (sub1 & Hcrop1 & ->). cbn [bind].
    destruct (rankBrYPosition (rankFound this r1 sub1) <? 0).
    + do 2 eexists. split; [reflexivity|]. cbn. auto.
    + destruct (suitLoop_frame cv error (Int.mul W H) cs (rankFound this r1 sub1)
                  (drawContours cv (zeros H W) p1) Hf Hin)
        as (this' & mask' & Hrun & _ & Hrk & Hx & Hy & Hsuit).
      exists this', mask'. split; [exact Hrun|]. split; [exact Hsuit|].
      rewrite Hrk, Hx, Hy. cbn. auto.
  - rewrite Hrank. cbn [bind].
    destruct (rankBrYPosition this <? 0).
    + do 2 eexists. split; [reflexivity|]. auto.
    + destruct (suitLoop_frame cv error (Int.mul W H) cs this (zeros H W) Hf Hin)
        as (this' & mask' & Hrun & _ & Hrk & Hx & Hy & Hsuit).
      exists this', mask'. split; [exact Hrun|]. split; [exact Hsuit|]. auto.
Qed.

End FindSubImages.

(** ** [extract] *)

Lemma region_wf (input : Mat) : wfInput input -> region input = Ok (regionOf input).
Proof.
  intros (Hr & Hc & Hcr). unfold region, regionOf, roi.
  rewrite Int_quot_nonneg by (assumption || lia).
  pose proof (quot_bounds (cols input) 4 Hc ltac:(lia)).
  pose proof (div3_5_bounds (rows input) Hr).
  rewrite roi_assertion by (cbn [x y width height]; lia).
  cbn [x y width height].
  destruct ((div3_5 (rows input) <=? 0) || (Z.quot (cols input) 4 <=? 0)); reflexivity.
Qed.

Section Extract.

Variable cv : OpenCV.

Variable error : Z.

Lemma contourList_entered (this : Extractor) (input : Mat) :
  contourList cv (entered cv this input) = contoursIn cv input.
Proof. reflexivity. Qed.

Lemma extract_entered (this : Extractor) (input : Mat) :
  wfInput input ->
  extract cv error this input
  = (this' <- findSubImages cv error (entered cv this input) ;;
     Ok (this', negb (empty (rank this') || empty (suit this')))).
Proof. intros Hwf. unfold extract. now rewrite region_wf. Qed.

(** The rank members and the result after a call. *)
Lemma extract_rank_spec (this : Extractor) (input : Mat) :
  let cs := contoursIn cv input in
  let W := cols (regionOf input) in
  let H := rows (regionOf input) in
  wellFormedRegion cv input ->
  exists this',
    extract cv error this input
    = Ok (this', negb (empty (rank this') || empty (suit this'))) /\
    (suit this' = suit this \/
     exists poly r, In (poly, r) cs /\ cropOf (regionOf input) r (suit this')) /\
    match find (fun c => rankFilter W H (snd c)) cs with
    | Some (_, r1) =>
        rankBrXPosition this' = x r1 + width r1 /\
        rankBrYPosition this' = y r1 + height r1 /\
        cropOf (regionOf input) r1 (rank this')
    | None =>
        rank this' = rank this /\
        rankBrXPosition this' = rankBrXPosition this /\
        rankBrYPosition this' = rankBrYPosition this
    end.
Proof.
  intros cs W H (Hwf & Hf & Hin).
  rewrite (extract_entered this input Hwf). unfold findSubImages.
  destruct (findSubImages_run_rank cv error (entered cv this input) Hf Hin)
    as (this' & mask' & -> & Hsuit & Hrank).
  cbn [bind]. exists this'. split; [reflexivity|]. split; [exact Hsuit|exact Hrank].
Qed.

(** The fields after a call, by the outcome of the two searches. *)
Lemma extract_spec (this : Extractor) (input : Mat) :
  let cs := contoursIn cv input in
  let W := cols (regionOf input) in
  let H := rows (regionOf input) in
  wellFormedRegion cv input -> marginFits error (regionOf input) ->
  (find (fun c => rankFilter W H (snd c)) cs = None ->
   0 <= rankBrYPosition this -> positionFits error (entered cv this input)) ->
  exists this',
    extract cv error this input
    = Ok (this', negb (empty (rank this') || empty (suit this'))) /\
    src this' = regionOf input /\
    match find (fun c => rankFilter W H (snd c)) cs with
    | Some (_, r1) =>
        rankBrXPosition this' = x r1 + width r1 /\
        rankBrYPosition this' = y r1 + height r1 /\
        cropOf (regionOf input) r1 (rank this') /\
        match find (fun c => suitFilter error W H (x r1 + width r1)
                                        (y r1 + height r1) (snd c)) cs with
        | Some (_, r2) => cropOf (regionOf input) r2 (suit this')
        | None => suit this' = suit this
        end
    | None =>
        rank this' = rank this /\
        rankBrXPosition this' = rankBrXPosition this /\
        rankBrYPosition this' = rankBrYPosition this /\
        if rankBrYPosition this <? 0 then suit this' = suit this
        else
          match find (fun c => suitFilter error W H (rankBrXPosition this)
                                          (rankBrYPosition this) (snd c)) cs with
          | Some (_, r2) => cropOf (regionOf input) r2 (suit this')
          | None => suit this' = suit this
          end
    end.
Proof.
  intros cs W H (Hwf & Hf & Hin) Hm Hp.
  rewrite (extract_entered this input Hwf). unfold findSubImages.
  pose proof (findSubImages_run_spec cv error (entered cv this input) Hf Hin Hm Hp) as Hrun.
  rewrite contourList_entered in Hrun.
  change (src (entered cv this input)) with (regionOf input) in Hrun.
  change (rankBrXPosition (entered cv this input)) with (rankBrXPosition this) in Hrun.
  change (rankBrYPosition (entered cv this input)) with (rankBrYPosition this) in Hrun.
  fold cs W H in Hrun.
  destruct (find (fun c => rankFilter W H (snd c)) cs) as [[p1 r1]|].
  - destruct Hrun as (sub1 & Hc1 & Hrun).
    destruct (find _ cs) as [[p2 r2]|].
    + destruct Hrun as (sub2 & Hc2 & ->). cbn [bind]. eexists. split; [reflexivity|].
      cbn. auto.
    + rewrite Hrun. cbn [bind]. eexists. split; [reflexivity|]. cbn. auto.
  - destruct (rankBrYPosition this <? 0).
    + rewrite Hrun. cbn [bind]. eexists. split; [reflexivity|]. cbn. auto.
    + destruct (find _ cs) as [[p2 r2]|].
      * destruct Hrun as (sub2 & Hc2 & ->). cbn [bind]. eexists. split; [reflexivity|].
        cbn. auto.
      * rewrite Hrun. cbn [bind]. eexists. split; [reflexivity|]. cbn. auto.
Qed.

End Extract.

(** With no contour passing the rank filter and a negative recorded
    position, the call returns at line 120 with every member of the record as
    it was on entry; the result is read off the old [rank] and [suit]. *)
Lemma extract_without_rank (cv : OpenCV) (error : Z) (this : Extractor) (input : Mat) :
  wfInput input -> fits (regionOf input) ->
  boxesInside (regionOf input) (contoursIn cv input) ->
  find (fun c => rankFilter (cols (regionOf input)) (rows (regionOf input)) (snd c))
       (contoursIn cv input) = None ->
  rankBrYPosition this < 0 ->
  extract cv error this input
  = Ok (entered cv this input, negb (empty (rank this) || empty (suit this))).
Proof.
  intros Hwf Hf Hin Hnone Hneg. rewrite (extract_entered cv error this input Hwf).
  unfold findSubImages, findSubImages_run.
  pose proof (rankLoop_find cv (contourList cv (entered cv this input)) (entered cv this input)
                (zeros (rows (regionOf input)) (cols (regionOf input))) Hf Hin) as Hrank.
  rewrite contourList_entered in *.
  change (src (entered cv this input)) with (regionOf input) in *.
  rewrite Hnone in Hrank. rewrite Hrank. cbn [bind].
  change (rankBrYPosition (entered cv this input)) with (rankBrYPosition this).
  destruct (Z.ltb_spec (rankBrYPosition this) 0); [|lia]. reflexivity.
Qed.

(** ** The scenes *)

Example regionOf_card : rows (regionOf card) = 160 /\ cols (regionOf card) = 100.
Proof. split; reflexivity. Qed.

Example boxes_of_glyphs :
  boundingRectOf glyphA = mkRect 10 10 40 70 /\
  boundingRectOf glyphB = mkRect 12 90 32 50 /\
  boundingRectOf triangle = mkRect 10 10 40 70.
Proof. repeat split; reflexivity. Qed.

Example glyphA_is_a_rank :
  rankFilter 100 160 (boundingRectOf glyphA) = true /\
  rankFilter 100 160 (boundingRectOf glyphB) = false.
Proof. split; reflexivity. Qed.

Example glyphB_is_a_suit_below_glyphA :
  suitFilter margin 100 160 50 80 (boundingRectOf glyphA) = false /\
  suitFilter margin 100 160 50 80 (boundingRectOf glyphB) = true.
Proof. split; reflexivity. Qed.

(** The card with both glyphs: [extract] succeeds, the rank position is the
    bottom-right corner of the rank's box. *)
Example extract_card_succeeds :
  ('(this', ok) <- extract (cvStub [glyphA; glyphB]) margin (Extractor_new false (-1)) card ;;
   Ok (ok, observe this'))
  = Ok (true, ((50, 80), (70, 40), (50, 32))).
Proof. vm_compute. reflexivity. Qed.

Example card_wellFormed :
  wellFormed (cvStub [glyphA; glyphB]) margin (Extractor_new false (-1)) card.
Proof. concrete. Qed.

(** * Part V.  The claims *)

(** C1.  Rank selection.  On a call whose contours are boxed inside the
    region, [extract] goes through the contours in the order of the tracing
    and takes as rank the first one that passes [rankFilter]: the recorded
    position is the bottom-right corner of its box and the rank sub-image is
    the region cropped to the box; when no contour passes, the rank and the
    position stay as they were.  [rankFilter] holds exactly when the box area
    is at least a tenth of the region's area, the truncated quotient of height
    by width lies in 1..4, and the bottom-right corner lies at or before three
    quarters of the region's width and height; a box that meets the other
    conditions and has its bottom-right y at exactly three quarters of the
    height passes, and no box whose bottom-right y is one pixel further does. *)
Theorem rank_selection_first_match (cv : OpenCV) (error : Z) (this : Extractor) (input : Mat) :
  wellFormedRegion cv input ->
  let W := cols (regionOf input) in
  let H := rows (regionOf input) in
  (exists this' ok,
      extract cv error this input = Ok (this', ok) /\
      match find (fun c => rankFilter W H (snd c)) (contoursIn cv input) with
      | Some (_, r) =>
          rankBrXPosition this' = x r + width r /\
          rankBrYPosition this' = y r + height r /\
          cropOf (regionOf input) r (rank this')
      | None =>
          rank this' = rank this /\
          rankBrXPosition this' = rankBrXPosition this /\
          rankBrYPosition this' = rankBrYPosition this
      end)
  /\ (forall r,
         rankFilter W H r = true <->
         Z.quot (W * H) 10 <= height r * width r /\
         1 <= Z.quot (height r) (width r) <= 4 /\
         x r + width r <= Z.quot (3 * W) 4 /\
         y r + height r <= Z.quot (3 * H) 4)
  /\ (forall r,
         Z.quot (W * H) 10 <= height r * width r ->
         1 <= Z.quot (height r) (width r) <= 4 ->
         x r + width r <= Z.quot (3 * W) 4 ->
         y r + height r = Z.quot (3 * H) 4 ->
         rankFilter W H r = true)
  /\ (forall r, y r + height r = Z.quot (3 * H) 4 + 1 -> rankFilter W H r = false).
Proof.
  intros Hwf W H. split; [|split; [|split]].
  - destruct (extract_rank_spec cv error this input Hwf) as (this' & Hrun & _ & Hfields).
    exists this', (negb (empty (rank this') || empty (suit this'))).
    split; [exact Hrun|exact Hfields].
  - intros r. unfold rankFilter. rewrite !andb_true_iff, !Z.leb_le. tauto.
  - intros r Ha Hq Hx Hy. unfold rankFilter. rewrite !andb_true_iff, !Z.leb_le. lia.
  - intros r Hy. unfold rankFilter. rewrite !andb_false_iff, !Z.leb_gt. lia.
Qed.

Lemma rank_selection_first_match_witness :
  wellFormedRegion (cvStub [glyphA; glyphB]) card /\
  exists this' ok,
    extract (cvStub [glyphA; glyphB]) margin (Extractor_new false (-1)) card = Ok (this', ok) /\
    rankBrXPosition this' = 50 /\ rankBrYPosition this' = 80 /\
    cropOf (regionOf card) (mkRect 10 10 40 70) (rank this').
Proof.
  assert (Hwf : wellFormedRegion (cvStub [glyphA; glyphB]) card) by concrete.
  split; [exact Hwf|].
  destruct (rank_selection_first_match (cvStub [glyphA; glyphB]) margin
              (Extractor_new false (-1)) card Hwf) as [(this' & ok & Hrun & Hsel) _].
  exists this', ok. split; [exact Hrun|]. exact Hsel.
Defined.

(** C2.  Suit selection.  On a call (contours boxed inside the region, a
    tolerance of moderate size) in which the rank search took the contour
    boxed [r1], so that the recorded corner [(rankX, rankY)] is the
    bottom-right corner of [r1], [extract] goes through the same contour list
    in the same order and takes as suit the first contour that passes
    [suitFilter] for that corner: the suit sub-image is the region cropped to
    its box and the call reports success; when none passes the suit stays as
    it was.  [suitFilter] holds exactly when the box area is at least a 25th
    of the region's area, the truncated quotient of height by width lies in
    1..4, the bottom-right y is strictly greater than [rankY + error] and the
    bottom-right x strictly less than [rankX + W / 6]. *)
Theorem suit_selection_first_match (cv : OpenCV) (error : Z) (this : Extractor)
        (input : Mat) (p1 : Polygon) (r1 : Rect) :
  wellFormedRegion cv input -> marginFits error (regionOf input) ->
  let W := cols (regionOf input) in
  let H := rows (regionOf input) in
  find (fun c => rankFilter W H (snd c)) (contoursIn cv input) = Some (p1, r1) ->
  (exists this' ok,
      extract cv error this input = Ok (this', ok) /\
      rankBrXPosition this' = x r1 + width r1 /\
      rankBrYPosition this' = y r1 + height r1 /\
      match find (fun c => suitFilter error W H (x r1 + width r1) (y r1 + height r1) (snd c))
                 (contoursIn cv input) with
      | Some (_, r2) => cropOf (regionOf input) r2 (suit this') /\ ok = true
      | None => suit this' = suit this /\ ok = negb (empty (suit this))
      end)
  /\ (forall rankX rankY r,
         suitFilter error W H rankX rankY r = true <->
         Z.quot (W * H) 25 <= height r * width r /\
         1 <= Z.quot (height r) (width r) <= 4 /\
         rankY + error < y r + height r /\
         x r + width r < rankX + Z.quot W 6).
Proof.
  intros Hwf Hm W H Hrank. split.
  - assert (Hp : find (fun c => rankFilter W H (snd c)) (contoursIn cv input) = None ->
                 0 <= rankBrYPosition this -> positionFits error (entered cv this input))
      by (rewrite Hrank; discriminate).
    destruct (extract_spec cv error this input Hwf Hm Hp) as (this' & Hrun & _ & Hfields).
    exists this', (negb (empty (rank this') || empty (suit this'))).
    split; [exact Hrun|]. fold W H in Hfields. rewrite Hrank in Hfields.
    destruct Hfields as (Hx & Hy & Hcrop1 & Hsuit).
    split; [exact Hx|]. split; [exact Hy|].
    destruct Hwf as (_ & _ & Hin).
    pose proof (find_inside _ _ _ _ _ Hin Hrank) as Hi1.
    rewrite (cropOf_nonempty _ _ _ Hi1 Hcrop1). cbn [orb].
    destruct (find (fun c => suitFilter error W H (x r1 + width r1) (y r1 + height r1) (snd c))
                   (contoursIn cv input)) as [[p2 r2]|] eqn:Efind.
    + split; [exact Hsuit|].
      pose proof (find_inside _ _ _ _ _ Hin Efind) as Hi2.
      now rewrite (cropOf_nonempty _ _ _ Hi2 Hsuit).
    + split; [exact Hsuit|]. now rewrite Hsuit.
  - intros rankX rankY r. unfold suitFilter.
    rewrite !andb_true_iff, !Z.leb_le, !Z.ltb_lt. tauto.
Qed.

Lemma suit_selection_first_match_witness :
  (wellFormedRegion (cvStub [glyphA; glyphB]) card /\
   marginFits margin (regionOf card) /\
   find (fun c => rankFilter 100 160 (snd c)) (contoursIn (cvStub [glyphA; glyphB]) card)
   = Some (glyphA, mkRect 10 10 40 70)) /\
  exists this' ok,
    extract (cvStub [glyphA; glyphB]) margin (Extractor_new false (-1)) card = Ok (this', ok) /\
    rankBrXPosition this' = 50 /\ rankBrYPosition this' = 80 /\
    cropOf (regionOf card) (mkRect 12 90 32 50) (suit this') /\ ok = true.
Proof.
  assert (Hwf : wellFormedRegion (cvStub [glyphA; glyphB]) card) by concrete.
  assert (Hm : marginFits margin (regionOf card)) by concrete.
  split; [split; [exact Hwf|split; [exact Hm|reflexivity]]|].
  destruct (suit_selection_first_match (cvStub [glyphA; glyphB]) margin
              (Extractor_new false (-1)) card glyphA (mkRect 10 10 40 70) Hwf Hm eq_refl)
    as [(this' & ok & Hrun & Hx & Hy & Hsel) _].
  exists this', ok. split; [exact Hrun|]. split; [exact Hx|]. split; [exact Hy|]. exact Hsel.
Defined.

(** ** Calls on an object that has been used before

    The members [rank], [suit], [rankBrXPosition] and [rankBrYPosition] are
    written only where a search takes a contour; nothing resets them at the
    start of [extract].  The runs are written in the monad of the program and
    report what a caller can observe: the results of the calls, [observe] of
    the object, and sample pixels. *)

(** C3.  Failing input for the fail-fast on a missing rank.  The first call,
    on a card with a rank and a suit, succeeds.  In the second picture the
    only contour fails the rank filter (its area 1350 is below 1600), yet the
    call does not stop at line 118: [rankBrYPosition] is still 80, the suit
    loop runs against the corner (50, 80) of the first card, takes the contour
    and replaces the suit by 45 by 30 pixels of the second picture (whose
    pixel in row 95, column 20 is (20, 95, 0)), and [extract] returns true,
    the rank still being that of the first card (whose pixel in row 10,
    column 10 is (10, 10, 255)). *)
Theorem suit_search_runs_without_rank :
  find (fun c => rankFilter 100 160 (snd c)) (contoursIn (cvStub [glyphC]) card2) = None /\
  ('(s1, ok1) <- extract (cvStub [glyphA; glyphB]) margin (Extractor_new false (-1)) card ;;
   '(s2, ok2) <- extract (cvStub [glyphC]) margin s1 card2 ;;
   Ok (ok1, observe s1, ok2, observe s2, at_ (rank s2) 0 0, at_ (suit s2) 0 0))
  = Ok (true, ((50, 80), (70, 40), (50, 32)),
        true, ((50, 80), (70, 40), (45, 30)), (10, 10, 255), (20, 95, 0)).
Proof. split; [reflexivity|]. vm_compute. reflexivity. Qed.

(** C4.  Failing input for statelessness.  On a picture without contours a
    new object reports failure and holds no sub-image; the object that has
    succeeded on a card before reports success on the same picture, with the
    rank and suit of that card (their pixels have 255 in the third channel,
    where the second picture has 0). *)
Theorem extract_depends_on_earlier_calls :
  ('(s0, ok0) <- extract (cvStub []) margin (Extractor_new false (-1)) card2 ;;
   Ok (ok0, observe s0))
  = Ok (false, ((-1, -1), (0, 0), (0, 0)))
  /\
  ('(s1, ok1) <- extract (cvStub [glyphA; glyphB]) margin (Extractor_new false (-1)) card ;;
   '(s2, ok2) <- extract (cvStub []) margin s1 card2 ;;
   Ok (ok1, ok2, observe s2, at_ (rank s2) 0 0, at_ (suit s2) 0 0))
  = Ok (true, true, ((50, 80), (70, 40), (50, 32)), (10, 10, 255), (90, 12, 255)).
Proof. split; vm_compute; reflexivity. Qed.

(** ** The edge detection *)

(** C5.  The thresholds of the edge detection.  Whatever the two grey
    images, [Canny] receives the same pair of thresholds, both the constant
    [THRESH_OTSU]: no threshold is computed from the image. *)
Theorem canny_thresholds_fixed (cv : OpenCV) (thisA thisB : Extractor) :
  exists threshold1 threshold2,
    canny_output cv thisA = Canny cv (src_gray thisA) threshold1 threshold2 /\
    canny_output cv thisB = Canny cv (src_gray thisB) threshold1 threshold2 /\
    (threshold1, threshold2) = (THRESH_OTSU, THRESH_OTSU).
Proof.
  exists THRESH_OTSU, THRESH_OTSU. unfold canny_output. repeat split.
Qed.

(** ** Failure and what it leaves behind *)

(** C6, the claim as it stands, fails: on a new object and a card whose only
    contour is a rank glyph, [extract] returns false and the [rank] member,
    empty before the call, holds the 70 by 40 pixels of the glyph's box. *)
Lemma failed_call_leaves_new_rank :
  ('(this', ok) <- extract (cvStub [glyphA]) margin (Extractor_new false (-1)) card ;;
   Ok (ok, empty (rank (Extractor_new false (-1))), empty (rank this'),
       observe this', at_ (rank this') 0 0))
  = Ok (false, true, false, ((50, 80), (70, 40), (0, 0)), (10, 10, 255)).
Proof. vm_compute. reflexivity. Qed.

(** C6, amended.  Whenever a call (contours boxed inside the region, a
    tolerance of moderate size) reports failure, on an object in any state of
    its life (no contour taken yet, or a rank taken by this or an earlier
    call), the call has produced no suit sub-image ([suit] is as before); it
    has produced no rank sub-image either when no contour passes the rank
    filter ([rank] is as before), and when one does, [rank] holds the region
    cropped to its box and no contour passes the suit filter. *)
Theorem failed_call_outputs (cv : OpenCV) (error : Z) (this : Extractor) (input : Mat) :
  wellFormedRegion cv input -> marginFits error (regionOf input) -> consistent this ->
  let W := cols (regionOf input) in
  let H := rows (regionOf input) in
  exists this' ok,
    extract cv error this input = Ok (this', ok) /\
    (ok = false ->
     suit this' = suit this /\
     match find (fun c => rankFilter W H (snd c)) (contoursIn cv input) with
     | None => rank this' = rank this
     | Some (_, r1) =>
         cropOf (regionOf input) r1 (rank this') /\
         find (fun c => suitFilter error W H (x r1 + width r1) (y r1 + height r1) (snd c))
              (contoursIn cv input) = None
     end).
Proof.
  intros Hwf Hm Hc W H.
  destruct (extract_rank_spec cv error this input Hwf) as (this' & Hrun & Hsuit' & Hrank').
  exists this', (negb (empty (rank this') || empty (suit this'))).
  split; [exact Hrun|]. intros Hfail. fold W H in Hrank'.
  pose proof Hwf as (_ & _ & Hin).
  destruct (find (fun c => rankFilter W H (snd c)) (contoursIn cv input))
    as [[p1 r1]|] eqn:Erank.
  - assert (Hp : find (fun c => rankFilter W H (snd c)) (contoursIn cv input) = None ->
                 0 <= rankBrYPosition this -> positionFits error (entered cv this input))
      by (rewrite Erank; discriminate).
    destruct (extract_spec cv error this input Hwf Hm Hp) as (s & Hs & _ & Hfields).
    rewrite Hrun in Hs. injection Hs as <- _.
    fold W H in Hfields. rewrite Erank in Hfields.
    destruct Hfields as (_ & _ & Hcrop1 & Hsuit).
    pose proof (find_inside _ _ _ _ _ Hin Erank) as Hi1.
    rewrite (cropOf_nonempty _ _ _ Hi1 Hcrop1) in Hfail. cbn [orb] in Hfail.
    destruct (find (fun c => suitFilter error W H (x r1 + width r1) (y r1 + height r1) (snd c))
                   (contoursIn cv input)) as [[p2 r2]|] eqn:Esuit.
    + pose proof (find_inside _ _ _ _ _ Hin Esuit) as Hi2.
      rewrite (cropOf_nonempty _ _ _ Hi2 Hsuit) in Hfail. discriminate.
    + auto.
  - destruct Hrank' as (Hr & _ & _). split; [|exact Hr].
    destruct Hc as [(Hneg & _ & _)|(Hpos & Hrne)].
    + destruct Hwf as (Hin0 & Hf & _).
      rewrite (extract_without_rank cv error this input Hin0 Hf Hin Erank Hneg) in Hrun.
      injection Hrun as <- _. reflexivity.
    + destruct Hsuit' as [Hsame|(poly & r & Hmem & Hcrop)]; [exact Hsame|].
      unfold boxesInside in Hin. rewrite Forall_forall in Hin.
      rewrite Hr, Hrne, (cropOf_nonempty _ _ _ (Hin _ Hmem) Hcrop) in Hfail. discriminate.
Qed.

Lemma failed_call_outputs_witness :
  (wellFormedRegion (cvStub [glyphA]) card /\ marginFits margin (regionOf card) /\
   consistent afterRankA) /\
  exists this',
    extract (cvStub [glyphA]) margin afterRankA card = Ok (this', false) /\
    suit this' = Mat_new /\ cropOf (regionOf card) (mkRect 10 10 40 70) (rank this').
Proof.
  assert (Hwf : wellFormedRegion (cvStub [glyphA]) card) by concrete.
  assert (Hm : marginFits margin (regionOf card)) by concrete.
  assert (Hc : consistent afterRankA) by (right; concrete).
  split; [auto|].
  destruct (failed_call_outputs (cvStub [glyphA]) margin afterRankA card Hwf Hm Hc)
    as (this' & ok & Hrun & Hout).
  assert (Hok : (r <- extract (cvStub [glyphA]) margin afterRankA card ;;
                 Ok (snd r)) = Ok false) by (vm_compute; reflexivity).
  rewrite Hrun in Hok. cbn in Hok. injection Hok as ->.
  exists this'. split; [exact Hrun|].
  destruct (Hout eq_refl) as (Hsuit & Hrank & _). split; [exact Hsuit | exact Hrank].
Defined.

(** ** The content of a sub-image *)

(** C7.  Failing input for the masking of the sub-image.  The only contour
    is a triangle boxed (10,10)-(50,80).  The top-right corner of the box,
    column 49 of row 10, is outside the triangle and not on the mask, yet the
    rank sub-image holds the region's pixel there (row 0, column 39 of the
    sub-image). *)
Theorem sub_image_keeps_pixels_outside_polygon :
  ('(this', extractMask) <-
     findSubImages_run (cvStub [triangle]) margin
       (entered (cvStub [triangle]) (Extractor_new false (-1)) card) ;;
   Ok (observe this', at_ extractMask 10 49, at_ (regionOf card) 10 49, at_ (rank this') 0 39))
  = Ok (((50, 80), (70, 40), (0, 0)), (0, 0, 0), (10, 49, 255), (10, 49, 255)).
Proof. vm_compute. reflexivity. Qed.

(** ** What the suit search reads *)

(** C8, the claim as it stands, fails: the two extractions write the one
    local [extractMask].  After the run on the card with both glyphs the mask
    under which the suit was copied carries the vertex (10, 10) of the rank
    glyph, which a blank mask with the suit glyph alone drawn on it does not. *)
Lemma suit_extraction_shares_the_mask :
  ('(this', extractMask) <-
     findSubImages_run (cvStub [glyphA; glyphB]) margin
       (entered (cvStub [glyphA; glyphB]) (Extractor_new false (-1)) card) ;;
   Ok (observe this', at_ extractMask 10 10,
       at_ (drawContours (cvStub [glyphA; glyphB]) (zeros 160 100) glyphB) 10 10))
  = Ok (((50, 80), (70, 40), (50, 32)), (255, 0, 0), (0, 0, 0)).
Proof. vm_compute. reflexivity. Qed.

(** C8, amended.  The suit loop started in two states that agree on the
    region and on the recorded corner [(rankX, rankY)], and differ at will in
    the [rank] sub-image, in every other member and in what is on the mask,
    takes the same contour, and the two suit sub-images have the same size
    and the same pixels: the region cropped to that contour's box. *)
Theorem suit_independent_of_rank_extraction (cv : OpenCV) (error : Z)
        (cs : list (Polygon * Rect)) (thisA thisB : Extractor) (maskA maskB : Mat) :
  src thisA = src thisB ->
  rankBrXPosition thisA = rankBrXPosition thisB ->
  rankBrYPosition thisA = rankBrYPosition thisB ->
  fits (src thisA) -> boxesInside (src thisA) cs -> positionFits error thisA ->
  let W := cols (src thisA) in
  let H := rows (src thisA) in
  exists thisA' maskA' thisB' maskB',
    suitLoop cv error (Int.mul W H) cs thisA maskA = Ok (thisA', maskA') /\
    suitLoop cv error (Int.mul W H) cs thisB maskB = Ok (thisB', maskB') /\
    match find (fun c => suitFilter error W H (rankBrXPosition thisA)
                                    (rankBrYPosition thisA) (snd c)) cs with
    | Some (_, r2) =>
        cropOf (src thisA) r2 (suit thisA') /\ sameMat (suit thisA') (suit thisB')
    | None => suit thisA' = suit thisA /\ suit thisB' = suit thisB
    end.
Proof.
  intros Hsrc Hx Hy Hf Hin Hp W H.
  pose proof (suitLoop_find cv error cs thisA maskA Hf Hin Hp) as HA.
  assert (HfB : fits (src thisB)) by (rewrite <- Hsrc; exact Hf).
  assert (HinB : boxesInside (src thisB) cs) by (rewrite <- Hsrc; exact Hin).
  assert (HpB : positionFits error thisB).
  { unfold positionFits in *. rewrite <- Hsrc, <- Hx, <- Hy. exact Hp. }
  pose proof (suitLoop_find cv error cs thisB maskB HfB HinB HpB) as HB.
  rewrite <- Hsrc, <- Hx, <- Hy in HB. fold W H in HA, HB.
  destruct (find (fun c => suitFilter error W H (rankBrXPosition thisA)
                                      (rankBrYPosition thisA) (snd c)) cs) as [[p2 r2]|].
  - destruct HA as (subA & HcA & HA). destruct HB as (subB & HcB & HB).
    do 4 eexists. split; [exact HA|]. split; [exact HB|]. cbn [set_suit suit].
    split; [exact HcA|]. exact (cropOf_sameMat _ _ _ _ HcA HcB).
  - do 4 eexists. split; [exact HA|]. split; [exact HB|]. split; reflexivity.
Qed.

Lemma suit_independent_of_rank_extraction_witness :
  (fits (src afterRankA) /\
   boxesInside (src afterRankA) (contoursIn (cvStub [glyphA; glyphB]) card) /\
   positionFits margin afterRankA) /\
  exists thisA' maskA' thisB' maskB',
    suitLoop (cvStub [glyphA; glyphB]) margin (Int.mul 100 160)
             (contoursIn (cvStub [glyphA; glyphB]) card) afterRankA
             (markVertices (zeros 160 100) glyphA) = Ok (thisA', maskA') /\
    suitLoop (cvStub [glyphA; glyphB]) margin (Int.mul 100 160)
             (contoursIn (cvStub [glyphA; glyphB]) card) cornerOnly
             (zeros 160 100) = Ok (thisB', maskB') /\
    cropOf (regionOf card) (mkRect 12 90 32 50) (suit thisA') /\
    sameMat (suit thisA') (suit thisB').
Proof.
  assert (Hf : fits (src afterRankA)) by concrete.
  assert (Hin : boxesInside (src afterRankA) (contoursIn (cvStub [glyphA; glyphB]) card))
    by concrete.
  assert (Hp : positionFits margin afterRankA) by concrete.
  split; [auto|].
  exact (suit_independent_of_rank_extraction (cvStub [glyphA; glyphB]) margin
           (contoursIn (cvStub [glyphA; glyphB]) card) afterRankA cornerOnly
           (markVertices (zeros 160 100) glyphA) (zeros 160 100)
           eq_refl eq_refl eq_refl Hf Hin Hp).
Defined.

(** ** Degenerate regions *)

(** C9.  Failing input for the uniform handling of a degenerate region.  A
    picture of 4 by 4 pixels has a corner region of one pixel and no contour;
    the call raises no fault, but on the object that has succeeded before it
    returns true. *)
Theorem degenerate_region_repeats_success :
  (rows (regionOf speck), cols (regionOf speck)) = (1, 1) /\
  contoursIn (cvStub []) speck = [] /\
  ('(s1, ok1) <- extract (cvStub [glyphA; glyphB]) margin (Extractor_new false (-1)) card ;;
   '(s2, ok2) <- extract (cvStub []) margin s1 speck ;;
   Ok (ok1, ok2, observe s2))
  = Ok (true, true, ((50, 80), (70, 40), (50, 32))).
Proof. split; [reflexivity|]. split; [reflexivity|]. vm_compute. reflexivity. Qed.

(** ** The scenario of a region of 200 by 280 pixels *)




(** * Part VI.  Further properties of the code *)

(** X1.  The fail-fast on a missing rank, on an object that has not found a
    rank before: when no contour passes the rank filter and the recorded
    position is still negative, [findSubImages] returns at line 120 with
    [rank], [suit] and the recorded position as they were and with nothing
    drawn on its mask, whatever the suit filter would say of the contours, and
    [extract] reports failure. *)
Theorem new_object_fails_fast (cv : OpenCV) (error : Z) (this : Extractor) (input : Mat) :
  wellFormedRegion cv input ->
  find (fun c => rankFilter (cols (regionOf input)) (rows (regionOf input)) (snd c))
       (contoursIn cv input) = None ->
  unused this ->
  exists this',
    findSubImages_run cv error (entered cv this input)
    = Ok (this', zeros (rows (regionOf input)) (cols (regionOf input))) /\
    extract cv error this input = Ok (this', false) /\
    rank this' = rank this /\ suit this' = suit this /\
    rankBrXPosition this' = rankBrXPosition this /\
    rankBrYPosition this' = rankBrYPosition this.
Proof.
  intros (Hwf & Hf & Hin) Hnone (Hr & _ & Hneg). exists (entered cv this input).
  split; [|split; [|cbn; auto]].
  - unfold findSubImages_run.
    pose proof (rankLoop_find cv (contourList cv (entered cv this input)) (entered cv this input)
                  (zeros (rows (regionOf input)) (cols (regionOf input))) Hf Hin) as Hrank.
    rewrite contourList_entered in *.
    change (src (entered cv this input)) with (regionOf input) in *.
    rewrite Hnone in Hrank. rewrite Hrank. cbn [bind].
    change (rankBrYPosition (entered cv this input)) with (rankBrYPosition this).
    destruct (Z.ltb_spec (rankBrYPosition this) 0); [reflexivity|lia].
  - rewrite (extract_without_rank cv error this input Hwf Hf Hin Hnone Hneg).
    now rewrite Hr.
Qed.

Lemma new_object_fails_fast_witness :
  (wellFormedRegion (cvStub [glyphC]) card2 /\ unused (Extractor_new false (-1))) /\
  exists this',
    extract (cvStub [glyphC]) margin (Extractor_new false (-1)) card2 = Ok (this', false) /\
    rank this' = Mat_new /\ suit this' = Mat_new /\
    rankBrXPosition this' = -1 /\ rankBrYPosition this' = -1.
Proof.
  assert (Hwf : wellFormedRegion (cvStub [glyphC]) card2) by concrete.
  assert (Hun : unused (Extractor_new false (-1))) by concrete.
  split; [auto|].
  destruct (new_object_fails_fast (cvStub [glyphC]) margin (Extractor_new false (-1))
              card2 Hwf eq_refl Hun) as (this' & _ & Hrun & Hmembers).
  exists this'. split; [exact Hrun | exact Hmembers].
Defined.

(** X2.  Idempotence.  A well-formed call followed by a call of the same
    object on the same input: both return, with the same result, the same
    recorded corner, and rank and suit sub-images of the same size and
    pixels. *)
Theorem extract_idempotent (cv : OpenCV) (error : Z) (this : Extractor) (input : Mat) :
  wellFormed cv error this input ->
  exists s1 s2 ok,
    extract cv error this input = Ok (s1, ok) /\
    extract cv error s1 input = Ok (s2, ok) /\
    rankBrXPosition s2 = rankBrXPosition s1 /\
    rankBrYPosition s2 = rankBrYPosition s1 /\
    sameMat (rank s1) (rank s2) /\ sameMat (suit s1) (suit s2).
Proof.
  intros Hwf.
  pose proof Hwf as ((Hin0 & Hf & Hin) & Hm & Hp).
  destruct (extract_spec cv error this input (conj Hin0 (conj Hf Hin)) Hm (fun _ _ => Hp))
    as (s1 & Hrun1 & _ & H1).
  assert (Hwf1 : wellFormed cv error s1 input).
  { split; [exact (conj Hin0 (conj Hf Hin))|]. split; [exact Hm|].
    unfold positionFits in *.
    change (rankBrXPosition (entered cv s1 input)) with (rankBrXPosition s1).
    change (rankBrYPosition (entered cv s1 input)) with (rankBrYPosition s1).
    change (rankBrXPosition (entered cv this input)) with (rankBrXPosition this) in Hp.
    change (rankBrYPosition (entered cv this input)) with (rankBrYPosition this) in Hp.
    change (src (entered cv s1 input)) with (regionOf input).
    change (src (entered cv this input)) with (regionOf input) in Hp.
    destruct (find _ (contoursIn cv input)) as [[p1 r1]|] eqn:Efind.
    - destruct H1 as (-> & -> & _).
      exact (corner_positionFits error _ _ Hf (find_inside _ _ _ _ _ Hin Efind) Hm).
    - destruct H1 as (_ & -> & -> & _). exact Hp. }
  destruct Hwf1 as (Hreg1 & _ & Hp1).
  destruct (extract_spec cv error s1 input Hreg1 Hm (fun _ _ => Hp1)) as (s2 & Hrun2 & _ & H2).
  assert (Hsame : rankBrXPosition s2 = rankBrXPosition s1 /\
                  rankBrYPosition s2 = rankBrYPosition s1 /\
                  sameMat (rank s1) (rank s2) /\ sameMat (suit s1) (suit s2)).
  { destruct (find (fun c => rankFilter _ _ (snd c)) (contoursIn cv input)) as [[p1 r1]|].
    - destruct H1 as (Hx1 & Hy1 & Hr1 & Hs1). destruct H2 as (Hx2 & Hy2 & Hr2 & Hs2).
      split; [congruence|]. split; [congruence|].
      split; [exact (cropOf_sameMat _ _ _ _ Hr1 Hr2)|].
      destruct (find _ (contoursIn cv input)) as [[p2 r2]|].
      + exact (cropOf_sameMat _ _ _ _ Hs1 Hs2).
      + rewrite Hs2. apply sameMat_refl.
    - destruct H1 as (Hr1 & Hx1 & Hy1 & Hs1). destruct H2 as (Hr2 & Hx2 & Hy2 & Hs2).
      split; [exact Hx2|]. split; [exact Hy2|].
      split; [rewrite Hr2; apply sameMat_refl|].
      rewrite Hx1, Hy1 in Hs2.
      destruct (rankBrYPosition this <? 0).
      + rewrite Hs2. apply sameMat_refl.
      + destruct (find _ (contoursIn cv input)) as [[p2 r2]|].
        * exact (cropOf_sameMat _ _ _ _ Hs1 Hs2).
        * rewrite Hs2. apply sameMat_refl. }
  destruct Hsame as (Hx & Hy & Hr & Hs).
  exists s1, s2, (negb (empty (rank s1) || empty (suit s1))).
  split; [exact Hrun1|]. split.
  - rewrite Hrun2. now rewrite (sameMat_empty _ _ Hr), (sameMat_empty _ _ Hs).
  - auto.
Qed.

Lemma extract_idempotent_witness :
  wellFormed (cvStub [glyphA; glyphB]) margin (Extractor_new false (-1)) card /\
  exists s1 s2 ok,
    extract (cvStub [glyphA; glyphB]) margin (Extractor_new false (-1)) card = Ok (s1, ok) /\
    extract (cvStub [glyphA; glyphB]) margin s1 card = Ok (s2, ok) /\
    rankBrXPosition s2 = rankBrXPosition s1 /\
    rankBrYPosition s2 = rankBrYPosition s1 /\
    sameMat (rank s1) (rank s2) /\ sameMat (suit s1) (suit s2).
Proof.
  assert (Hwf : wellFormed (cvStub [glyphA; glyphB]) margin (Extractor_new false (-1)) card)
    by concrete.
  split; [exact Hwf|].
  exact (extract_idempotent (cvStub [glyphA; glyphB]) margin (Extractor_new false (-1)) card Hwf).
Defined.

(** X3.  Once both sub-images are there, every later call reports success:
    [rank] and [suit] are only ever replaced by crops of non-degenerate
    boxes. *)
Theorem success_is_sticky (cv : OpenCV) (error : Z) (this : Extractor) (input : Mat) :
  wellFormedRegion cv input ->
  empty (rank this) = false -> empty (suit this) = false ->
  exists this', extract cv error this input = Ok (this', true).
Proof.
  intros Hwf Hr Hs.
  destruct (extract_rank_spec cv error this input Hwf) as (this' & Hrun & Hsuit & Hrank).
  destruct Hwf as (_ & _ & Hin).
  exists this'. rewrite Hrun. f_equal. f_equal.
  assert (Hs' : empty (suit this') = false).
  { destruct Hsuit as [->|(poly & r & Hmem & Hcrop)]; [exact Hs|].
    unfold boxesInside in Hin. rewrite Forall_forall in Hin.
    exact (cropOf_nonempty _ _ _ (Hin _ Hmem) Hcrop). }
  assert (Hr' : empty (rank this') = false).
  { destruct (find _ (contoursIn cv input)) as [[p1 r1]|] eqn:Efind.
    - destruct Hrank as (_ & _ & Hcrop).
      exact (cropOf_nonempty _ _ _ (find_inside _ _ _ _ _ Hin Efind) Hcrop).
    - destruct Hrank as (-> & _). exact Hr. }
  now rewrite Hr', Hs'.
Qed.

Lemma success_is_sticky_witness :
  (wellFormedRegion (cvStub []) speck /\
   empty (rank afterSuccess) = false /\ empty (suit afterSuccess) = false) /\
  exists this', extract (cvStub []) margin afterSuccess speck = Ok (this', true).
Proof.
  assert (Hwf : wellFormedRegion (cvStub []) speck) by concrete.
  split; [split; [exact Hwf|split; reflexivity]|].
  exact (success_is_sticky (cvStub []) margin afterSuccess speck Hwf eq_refl eq_refl).
Defined.

(** X4.  A region with pixels and without contours: in any state of the
    object the call returns (no operation of the program faults; the library
    routines are taken to return), leaves [rank], [suit] and the recorded
    position as they were, and returns what the [rank] and [suit] of earlier
    calls say. *)
Theorem extract_without_contours (cv : OpenCV) (error : Z) (this : Extractor) (input : Mat) :
  wfInput input -> empty (regionOf input) = false -> contoursIn cv input = [] ->
  exists this',
    extract cv error this input
    = Ok (this', negb (empty (rank this) || empty (suit this))) /\
    rank this' = rank this /\ suit this' = suit this /\
    rankBrXPosition this' = rankBrXPosition this /\
    rankBrYPosition this' = rankBrYPosition this.
Proof.
  intros Hwf _ Hnil. exists (entered cv this input). split; [|cbn; auto].
  rewrite (extract_entered cv error this input Hwf).
  unfold findSubImages, findSubImages_run. rewrite contourList_entered, Hnil.
  cbn [rankLoop bind]. destruct (rankBrYPosition (entered cv this input) <? 0); reflexivity.
Qed.

Lemma extract_without_contours_witness :
  (wfInput speck /\ empty (regionOf speck) = false) /\
  exists this',
    extract (cvStub []) margin afterRankA speck = Ok (this', false) /\
    rank this' = picture 40 70 /\ suit this' = Mat_new /\
    rankBrXPosition this' = 50 /\ rankBrYPosition this' = 80.
Proof.
  assert (Hwf : wfInput speck) by concrete.
  assert (Hne : empty (regionOf speck) = false) by reflexivity.
  split; [auto|].
  exact (extract_without_contours (cvStub []) margin afterRankA speck Hwf Hne eq_refl).
Defined.

(** X5.  The sub-image of a contour is the region cropped to the contour's
    box, whatever polygon is drawn and whatever is on the mask: two
    extractions over the same box give the same pixels. *)
Theorem sub_image_ignores_mask (cv : OpenCV) (source maskA maskB : Mat)
        (polyA polyB : Polygon) (r : Rect) :
  inside source r ->
  exists subA subB,
    subImage cv source maskA polyA r = Ok (subA, drawContours cv maskA polyA) /\
    subImage cv source maskB polyB r = Ok (subB, drawContours cv maskB polyB) /\
    cropOf source r subA /\ sameMat subA subB.
Proof.
  intros Hi.
  destruct (subImage_inside cv source maskA polyA r Hi) as (subA & HA & HcA).
  destruct (subImage_inside cv source maskB polyB r Hi) as (subB & HB & HcB).
  exists subA, subB. repeat (split; [assumption|]).
  exact (cropOf_sameMat _ _ _ _ HcA HcB).
Qed.

Lemma sub_image_ignores_mask_witness :
  inside (regionOf card) (mkRect 10 10 40 70) /\
  exists subA subB,
    subImage (cvStub []) (regionOf card) (zeros 160 100) triangle (mkRect 10 10 40 70)
    = Ok (subA, markVertices (zeros 160 100) triangle) /\
    subImage (cvStub []) (regionOf card) (zeros 160 100) glyphA (mkRect 10 10 40 70)
    = Ok (subB, markVertices (zeros 160 100) glyphA) /\
    cropOf (regionOf card) (mkRect 10 10 40 70) subA /\ sameMat subA subB.
Proof.
  assert (Hi : inside (regionOf card) (mkRect 10 10 40 70)) by concrete.
  split; [exact Hi|].
  exact (sub_image_ignores_mask (cvStub []) (regionOf card) (zeros 160 100) (zeros 160 100)
           triangle glyphA (mkRect 10 10 40 70) Hi).
Defined.

(** * Part VII.  The rest of [extract] and [findSubImages] *)

(** ** What the loops leave alone *)

Section Frames.

Variable cv : OpenCV.
Variable error : Z.

(** The rank loop writes [rank] and the recorded position and nothing else. *)
Lemma rankLoop_members (area : Z) (cs : list (Polygon * Rect)) (this this' : Extractor)
      (mask mask' : Mat) :
  rankLoop cv area cs this mask = Ok (this', mask') ->
  enableShowResult this' = enableShowResult this /\
  src this' = src this /\ src_gray this' = src_gray this /\ suit this' = suit this.
Proof.
  induction cs as [|[poly r] rest IH]; cbn [rankLoop].
  - intros [= <- <-]. auto.
  - destruct (rankRejects this area r) as [[|]|f]; cbn [bind].
    + exact IH.
    + destruct (subImage cv _ mask poly r) as [[sub m]|f]; cbn [bind]; [|discriminate].
      intros [= <- <-]. cbn. auto.
    + discriminate.
Qed.

(** The suit loop writes [suit] and nothing else. *)
Lemma suitLoop_members (area : Z) (cs : list (Polygon * Rect)) (this this' : Extractor)
      (mask mask' : Mat) :
  suitLoop cv error area cs this mask = Ok (this', mask') ->
  enableShowResult this' = enableShowResult this /\
  src this' = src this /\ src_gray this' = src_gray this /\ rank this' = rank this /\
  rankBrXPosition this' = rankBrXPosition this /\
  rankBrYPosition this' = rankBrYPosition this.
Proof.
  induction cs as [|[poly r] rest IH]; cbn [suitLoop].
  - intros [= <- <-]. auto 10.
  - destruct (suitRejects error this area r) as [[|]|f]; cbn [bind].
    + exact IH.
    + destruct (subImage cv _ mask poly r) as [[sub m]|f]; cbn [bind]; [|discriminate].
      intros [= <- <-]. cbn. auto 10.
    + discriminate.
Qed.

Lemma findSubImages_run_members (this this' : Extractor) (mask' : Mat) :
  findSubImages_run cv error this = Ok (this', mask') ->
  enableShowResult this' = enableShowResult this /\
  src this' = src this /\ src_gray this' = src_gray this.
Proof.
  unfold findSubImages_run.
  destruct (rankLoop cv _ _ this _) as [[this1 mask1]|f] eqn:Hrank; cbn [bind]; [|discriminate].
  destruct (rankLoop_members _ _ _ _ _ _ Hrank) as (He & Hs & Hg & _).
  destruct (rankBrYPosition this1 <? 0).
  - intros [= <- <-]. auto.
  - intros Hsuit. destruct (suitLoop_members _ _ _ _ _ _ Hsuit) as (He' & Hs' & Hg' & _).
    rewrite He', Hs', Hg'. rewrite Hs in *. auto.
Qed.

(** The display of a run, read off the run itself: the windows open when
    the run got past line 118 and the test of line 149 holds of the members
    it leaves. *)
Lemma findSubImages_shows_run (this : Extractor) :
  findSubImages_shows cv error this
  = ('(this', _) <- findSubImages_run cv error this ;;
     Ok ((0 <=? rankBrYPosition this') && showsResult this')).
Proof.
  unfold findSubImages_shows, findSubImages_run.
  destruct (rankLoop cv _ _ this _) as [[this1 mask1]|f] eqn:Hrank; cbn [bind]; [|reflexivity].
  destruct (Z.ltb_spec (rankBrYPosition this1) 0) as [Hneg|Hpos].
  - cbn [bind]. destruct (Z.leb_spec 0 (rankBrYPosition this1)); [lia|reflexivity].
  - destruct (suitLoop cv error _ _ this1 mask1) as [[this2 mask2]|f] eqn:Hsuit;
      cbn [bind]; [|reflexivity].
    destruct (suitLoop_members _ _ _ _ _ _ Hsuit) as (_ & _ & _ & _ & _ & Hy).
    rewrite Hy. destruct (Z.leb_spec 0 (rankBrYPosition this1)); [reflexivity|lia].
Qed.

End Frames.

(** ** The region selector *)

(** X6.  Line 31 on an image whose sizes are non-negative [int]s: the
    region is cut without a fault.  It is empty exactly when the input has
    fewer than 4 columns or fewer than 4 rows, and then has neither rows nor
    columns; otherwise it is the top-left corner of the input, pixel for
    pixel, [cols / 4] wide and [2 * rows / 7] high (both rounded down). *)
Theorem region_is_top_left_corner (input : Mat) :
  wfInput input -> Int.in_range (rows input) ->
  exists m,
    region input = Ok m /\
    (empty m = true <-> cols input < 4 \/ rows input < 4) /\
    (empty m = true -> rows m = 0 /\ cols m = 0) /\
    (empty m = false ->
     (4 * cols m <= cols input < 4 * cols m + 4) /\
     (7 * rows m <= 2 * rows input < 7 * rows m + 7) /\
     (forall i j, at_ m i j = at_ input i j)).
Proof.
  intros Hwf _. exists (regionOf input). split; [exact (region_wf input Hwf)|].
  destruct Hwf as (Hr & Hc & _). unfold regionOf, div3_5.
  rewrite !Z.quot_div_nonneg by lia.
  pose proof (Z.div_mod (cols input) 4 ltac:(lia)).
  pose proof (Z.mod_pos_bound (cols input) 4 ltac:(lia)).
  pose proof (Z.div_mod (2 * rows input) 7 ltac:(lia)).
  pose proof (Z.mod_pos_bound (2 * rows input) 7 ltac:(lia)).
  assert (0 <= cols input / 4) by (apply Z.div_pos; lia).
  assert (0 <= 2 * rows input / 7) by (apply Z.div_pos; lia).
  destruct (Z.leb_spec (2 * rows input / 7) 0) as [Hh|Hh];
    destruct (Z.leb_spec (cols input / 4) 0) as [Hw|Hw]; cbn [orb];
    unfold empty; cbn [Mat_new rows cols at_].
  1-3: (split; [split; [intros _; lia|reflexivity]|]);
       (split; [auto|]); cbn; discriminate.
  split; [|split].
  - rewrite Z.eqb_eq. split; [|lia]. intros Hz. apply Z.mul_eq_0 in Hz. lia.
  - rewrite Z.eqb_eq. intros Hz. apply Z.mul_eq_0 in Hz. lia.
  - intros _. split; [lia|]. split; [lia|]. reflexivity.
Qed.

Lemma region_is_top_left_corner_witness :
  (wfInput card /\ Int.in_range (rows card)) /\
  exists m,
    region card = Ok m /\
    (empty m = true <-> 400 < 4 \/ 560 < 4) /\
    (empty m = true -> rows m = 0 /\ cols m = 0) /\
    (empty m = false ->
     (4 * cols m <= 400 < 4 * cols m + 4) /\
     (7 * rows m <= 2 * 560 < 7 * rows m + 7) /\
     (forall i j, at_ m i j = at_ card i j)).
Proof.
  assert (Hwf : wfInput card) by concrete.
  assert (Hr : Int.in_range (rows card)) by concrete.
  split; [auto|]. exact (region_is_top_left_corner card Hwf Hr).
Defined.



(** ** When a call succeeds, and what it then returns *)

Lemma ratio_band (h w : Z) :
  0 < w -> 0 < h -> 1 <= Z.quot h w <= 4 -> w <= h < 5 * w.
Proof.
  intros Hw Hh. rewrite Z.quot_div_nonneg by lia. intros Hq.
  pose proof (Z.div_mod h w ltac:(lia)). pose proof (Z.mod_pos_bound h w Hw). nia.
Qed.

(** X8.  On an object that has taken no contour yet, [extract] returns true
    exactly when some contour passes the rank filter and some contour passes
    the suit filter against the corner of the first rank match. *)
Theorem success_iff_both_found (cv : OpenCV) (error : Z) (this : Extractor) (input : Mat) :
  wellFormedRegion cv input -> marginFits error (regionOf input) -> unused this ->
  let W := cols (regionOf input) in
  let H := rows (regionOf input) in
  exists this' ok,
    extract cv error this input = Ok (this', ok) /\
    (ok = true <->
     exists p1 r1 p2 r2,
       find (fun c => rankFilter W H (snd c)) (contoursIn cv input) = Some (p1, r1) /\
       find (fun c => suitFilter error W H (x r1 + width r1) (y r1 + height r1) (snd c))
            (contoursIn cv input) = Some (p2, r2)).
Proof.
  intros Hwf Hm (Hr & Hs & Hneg) W H.
  assert (Hp : find (fun c => rankFilter W H (snd c)) (contoursIn cv input) = None ->
               0 <= rankBrYPosition this -> positionFits error (entered cv this input))
    by (intros _ Hpos; lia).
  destruct (extract_spec cv error this input Hwf Hm Hp) as (this' & Hrun & _ & Hfields).
  exists this', (negb (empty (rank this') || empty (suit this'))).
  split; [exact Hrun|]. fold W H in Hfields. destruct Hwf as (_ & _ & Hin).
  destruct (find (fun c => rankFilter W H (snd c)) (contoursIn cv input))
    as [[p1 r1]|] eqn:Erank.
  - destruct Hfields as (_ & _ & Hcrop1 & Hsuit).
    rewrite (cropOf_nonempty _ _ _ (find_inside _ _ _ _ _ Hin Erank) Hcrop1). cbn [orb].
    destruct (find (fun c => suitFilter error W H (x r1 + width r1) (y r1 + height r1) (snd c))
                   (contoursIn cv input)) as [[p2 r2]|] eqn:Esuit.
    + rewrite (cropOf_nonempty _ _ _ (find_inside _ _ _ _ _ Hin Esuit) Hsuit).
      split; [|reflexivity]. intros _. exists p1, r1, p2, r2. split; [reflexivity|exact Esuit].
    + rewrite Hsuit, Hs. split; [discriminate|].
      intros (q1 & s1 & q2 & s2 & [= <- <-] & Hsome). rewrite Esuit in Hsome. discriminate.
  - destruct Hfields as (Hrk & _). rewrite Hrk, Hr. split; [discriminate|].
    intros (q1 & s1 & q2 & s2 & Hsome & _). discriminate.
Qed.

Lemma success_iff_both_found_witness :
  (wellFormedRegion (cvStub [glyphA; glyphB]) card /\ marginFits margin (regionOf card) /\
   unused (Extractor_new false (-1))) /\
  exists this', extract (cvStub [glyphA; glyphB]) margin (Extractor_new false (-1)) card
                = Ok (this', true).
Proof.
  assert (Hwf : wellFormedRegion (cvStub [glyphA; glyphB]) card) by concrete.
  assert (Hm : marginFits margin (regionOf card)) by concrete.
  assert (Hun : unused (Extractor_new false (-1))) by concrete.
  split; [auto|].
  destruct (success_iff_both_found (cvStub [glyphA; glyphB]) margin (Extractor_new false (-1))
              card Hwf Hm Hun) as (this' & ok & Hrun & Hiff).
  assert (Hok : ok = true).
  { apply Hiff. exists glyphA, (mkRect 10 10 40 70), glyphB, (mkRect 12 90 32 50).
    split; reflexivity. }
  rewrite Hok in Hrun. exists this'. exact Hrun.
Defined.

(** X9.  What a successful call on an object that has taken no contour yet
    hands out, for a tolerance that is not negative.  Both sub-images are at
    least as high as wide and less than five times as high; the rank covers
    at least a tenth and the suit at least a 25th of the region's area; the
    rank lies in the top-left three quarters of the region; and the two come
    from boxes [r1], [r2] of the contour list with the bottom edge of the
    suit's box strictly below that of the rank's, so never from one box. *)
Theorem success_layout (cv : OpenCV) (error : Z) (this this' : Extractor) (input : Mat) :
  wellFormedRegion cv input -> marginFits error (regionOf input) -> unused this ->
  0 <= error ->
  extract cv error this input = Ok (this', true) ->
  let W := cols (regionOf input) in
  let H := rows (regionOf input) in
  exists p1 r1 p2 r2,
    In (p1, r1) (contoursIn cv input) /\ In (p2, r2) (contoursIn cv input) /\
    cropOf (regionOf input) r1 (rank this') /\ cropOf (regionOf input) r2 (suit this') /\
    (cols (rank this') <= rows (rank this') < 5 * cols (rank this')) /\
    (cols (suit this') <= rows (suit this') < 5 * cols (suit this')) /\
    Z.quot (W * H) 10 <= rows (rank this') * cols (rank this') /\
    Z.quot (W * H) 25 <= rows (suit this') * cols (suit this') /\
    x r1 + cols (rank this') <= Z.quot (3 * W) 4 /\
    y r1 + rows (rank this') <= Z.quot (3 * H) 4 /\
    y r1 + rows (rank this') + error < y r2 + rows (suit this') /\
    x r2 + cols (suit this') < x r1 + cols (rank this') + Z.quot W 6 /\
    r1 <> r2.
Proof.
  intros Hwf Hm (Hr & Hs & Hneg) He Hrun W H.
  assert (Hp : find (fun c => rankFilter W H (snd c)) (contoursIn cv input) = None ->
               0 <= rankBrYPosition this -> positionFits error (entered cv this input))
    by (intros _ Hpos; lia).
  destruct (extract_spec cv error this input Hwf Hm Hp) as (s & Hrun' & _ & Hfields).
  rewrite Hrun in Hrun'. injection Hrun' as <- Hok. symmetry in Hok.
  apply negb_true_iff, orb_false_iff in Hok. destruct Hok as [Hrk Hst].
  fold W H in Hfields. destruct Hwf as (_ & _ & Hin).
  destruct (find (fun c => rankFilter W H (snd c)) (contoursIn cv input))
    as [[p1 r1]|] eqn:Erank.
  2:{ destruct Hfields as (Hsame & _). rewrite Hsame, Hr in Hrk. discriminate. }
  destruct Hfields as (_ & _ & Hcrop1 & Hsuit).
  destruct (find (fun c => suitFilter error W H (x r1 + width r1) (y r1 + height r1) (snd c))
                 (contoursIn cv input)) as [[p2 r2]|] eqn:Esuit.
  2:{ rewrite Hsuit, Hs in Hst. discriminate. }
  pose proof (find_inside _ _ _ _ _ Hin Erank) as (_ & _ & Hw1 & Hh1 & _).
  pose proof (find_inside _ _ _ _ _ Hin Esuit) as (_ & _ & Hw2 & Hh2 & _).
  apply find_some in Erank as [Hmem1 Hf1]. apply find_some in Esuit as [Hmem2 Hf2].
  cbn [snd] in Hf1, Hf2. unfold rankFilter in Hf1. unfold suitFilter in Hf2.
  rewrite !andb_true_iff, !Z.leb_le in Hf1. rewrite !andb_true_iff, !Z.leb_le, !Z.ltb_lt in Hf2.
  destruct Hf1 as ((((Ha1 & Hq1) & Hq1') & Hx1) & Hy1).
  destruct Hf2 as ((((Ha2 & Hq2) & Hq2') & Hy2) & Hx2).
  pose proof (ratio_band _ _ Hw1 Hh1 (conj Hq1 Hq1')) as Hband1.
  pose proof (ratio_band _ _ Hw2 Hh2 (conj Hq2 Hq2')) as Hband2.
  pose proof Hcrop1 as (Hr1 & Hc1 & _). pose proof Hsuit as (Hr2 & Hc2 & _).
  exists p1, r1, p2, r2. rewrite Hr1, Hc1, Hr2, Hc2.
  repeat (split; [assumption|]). intros Heq. subst r2. lia.
Qed.

Lemma success_layout_witness :
  (wellFormedRegion (cvStub [glyphA; glyphB]) card /\ marginFits margin (regionOf card) /\
   unused (Extractor_new false (-1)) /\ 0 <= margin) /\
  exists this',
    extract (cvStub [glyphA; glyphB]) margin (Extractor_new false (-1)) card = Ok (this', true) /\
    (cols (rank this') <= rows (rank this') < 5 * cols (rank this')) /\
    (cols (suit this') <= rows (suit this') < 5 * cols (suit this')).
Proof.
  assert (Hwf : wellFormedRegion (cvStub [glyphA; glyphB]) card) by concrete.
  assert (Hm : marginFits margin (regionOf card)) by concrete.
  assert (Hun : unused (Extractor_new false (-1))) by concrete.
  assert (He : 0 <= margin) by concrete.
  split; [auto|].
  destruct (extract_rank_spec (cvStub [glyphA; glyphB]) margin (Extractor_new false (-1)) card Hwf)
    as (this' & Hrun & _).
  assert (Hok : (r <- extract (cvStub [glyphA; glyphB]) margin (Extractor_new false (-1)) card ;;
                 Ok (snd r)) = Ok true) by (vm_compute; reflexivity).
  rewrite Hrun in Hok. cbn in Hok. injection Hok as Hok. rewrite Hok in Hrun.
  exists this'. split; [exact Hrun|].
  destruct (success_layout (cvStub [glyphA; glyphB]) margin (Extractor_new false (-1)) this'
              card Hwf Hm Hun He Hrun)
    as (p1 & r1 & p2 & r2 & _ & _ & _ & _ & Hb1 & Hb2 & _).
  split; [exact Hb1|exact Hb2].
Defined.

(** ** The life of an object *)

(** One call on a well-formed region: it returns, keeps a sub-image that is
    there, keeps a recorded position that is not negative, and either finds
    a rank (the position is then positive and [rank] not empty) or leaves
    [rank] and the position as they were. *)
Lemma extract_step (cv : OpenCV) (error : Z) (this : Extractor) (input : Mat) :
  wellFormedRegion cv input ->
  exists this',
    extract cv error this input
    = Ok (this', negb (empty (rank this') || empty (suit this'))) /\
    (empty (suit this) = false -> empty (suit this') = false) /\
    ((0 < rankBrYPosition this' /\ empty (rank this') = false) \/
     (rank this' = rank this /\ rankBrYPosition this' = rankBrYPosition this)).
Proof.
  intros Hwf.
  destruct (extract_rank_spec cv error this input Hwf) as (this' & Hrun & Hsuit & Hrank).
  destruct Hwf as (_ & _ & Hin).
  exists this'. split; [exact Hrun|]. split.
  - intros Hs. destruct Hsuit as [->|(poly & r & Hmem & Hcrop)]; [exact Hs|].
    unfold boxesInside in Hin. rewrite Forall_forall in Hin.
    exact (cropOf_nonempty _ _ _ (Hin _ Hmem) Hcrop).
  - destruct (find _ (contoursIn cv input)) as [[p1 r1]|] eqn:Efind.
    + left. destruct Hrank as (_ & Hy & Hcrop).
      pose proof (find_inside _ _ _ _ _ Hin Efind) as Hi.
      split; [|exact (cropOf_nonempty _ _ _ Hi Hcrop)].
      destruct Hi as (_ & ? & _ & ? & _). lia.
    + right. destruct Hrank as (Hr & _ & Hy). auto.
Qed.

(** X10.  The states of an object form an invariant of [extract]: from a
    state in which no contour has been taken (negative position, both
    sub-images empty) or a rank has been taken (position not negative, [rank]
    not empty), a call on a well-formed region returns in such a state again;
    and a call that returns true leaves a position that is not negative. *)
Theorem consistent_preserved (cv : OpenCV) (error : Z) (this : Extractor) (input : Mat) :
  wellFormedRegion cv input -> consistent this ->
  exists this' ok,
    extract cv error this input = Ok (this', ok) /\
    consistent this' /\
    (ok = true -> 0 <= rankBrYPosition this').
Proof.
  intros Hwf Hc.
  destruct (extract_step cv error this input Hwf) as (this' & Hrun & Hsuit & Hrank).
  assert (Hc' : consistent this').
  { destruct Hrank as [[Hy Hr]|[Hr Hy]].
    - right. split; [lia|exact Hr].
    - destruct Hc as [(Hneg & Hre & Hse)|(Hpos & Hrne)].
      + left. rewrite Hy in *.
        destruct Hwf as (Hin0 & Hf & Hin).
        assert (Hnone : find (fun c => rankFilter (cols (regionOf input)) (rows (regionOf input))
                                                  (snd c)) (contoursIn cv input) = None).
        { destruct (extract_rank_spec cv error this input (conj Hin0 (conj Hf Hin)))
            as (s & Hs & _ & Hfields).
          rewrite Hrun in Hs. injection Hs as <- _.
          destruct (find _ (contoursIn cv input)) as [[p1 r1]|] eqn:Efind; [|reflexivity].
          destruct Hfields as (_ & Hy1 & _).
          pose proof (find_inside _ _ _ _ _ Hin Efind) as (_ & ? & _ & ? & _). lia. }
        rewrite (extract_without_rank cv error this input Hin0 Hf Hin Hnone Hneg) in Hrun.
        injection Hrun as <- _. cbn. auto.
      + right. rewrite Hy, Hr. auto. }
  exists this', (negb (empty (rank this') || empty (suit this'))).
  split; [exact Hrun|]. split; [exact Hc'|].
  intros Hok. apply negb_true_iff, orb_false_iff in Hok. destruct Hok as [Hrne _].
  destruct Hc' as [(_ & Hre & _)|(Hpos & _)]; [congruence|exact Hpos].
Qed.

Lemma consistent_preserved_witness :
  (wellFormedRegion (cvStub [glyphA]) card /\ consistent (Extractor_new false (-1))) /\
  exists this' ok,
    extract (cvStub [glyphA]) margin (Extractor_new false (-1)) card = Ok (this', ok) /\
    consistent this' /\ (ok = true -> 0 <= rankBrYPosition this').
Proof.
  assert (Hwf : wellFormedRegion (cvStub [glyphA]) card) by concrete.
  assert (Hc : consistent (Extractor_new false (-1))) by (left; concrete).
  split; [auto|].
  exact (consistent_preserved (cvStub [glyphA]) margin (Extractor_new false (-1)) card Hwf Hc).
Defined.




(** ** Faults *)

Lemma roi_fault (m : Mat) (r : Rect) (f : fault) :
  roi m r = Fault f -> f = BadRoi /\ outside m r.
Proof.
  unfold roi, outside.
  destruct (Z.leb_spec 0 (x r)); [|intros [= <-]; split; [reflexivity|lia]].
  destruct (Z.leb_spec 0 (width r)); [|intros [= <-]; split; [reflexivity|lia]].
  destruct (Z.leb_spec (Int.add (x r) (width r)) (cols m));
    [|intros [= <-]; split; [reflexivity|lia]].
  destruct (Z.leb_spec 0 (y r)); [|intros [= <-]; split; [reflexivity|lia]].
  destruct (Z.leb_spec 0 (height r)); [|intros [= <-]; split; [reflexivity|lia]].
  destruct (Z.leb_spec (Int.add (y r) (height r)) (rows m));
    [|intros [= <-]; split; [reflexivity|lia]].
  cbn [andb]. destruct (_ || _); discriminate.
Qed.

(** The assertion reads the sizes of the matrix alone. *)
Lemma outside_roi (m : Mat) (r : Rect) : outside m r -> roi m r = Fault BadRoi.
Proof.
  unfold roi, outside. intros Hout.
  destruct (Z.leb_spec 0 (x r)); [|reflexivity].
  destruct (Z.leb_spec 0 (width r)); [|reflexivity].
  destruct (Z.leb_spec (Int.add (x r) (width r)) (cols m)); [|reflexivity].
  destruct (Z.leb_spec 0 (y r)); [|reflexivity].
  destruct (Z.leb_spec 0 (height r)); [|reflexivity].
  destruct (Z.leb_spec (Int.add (y r) (height r)) (rows m)); [|reflexivity].
  lia.
Qed.

Section Faults.

Variable cv : OpenCV.
Variable error : Z.

Lemma subImage_fault (source mask : Mat) (poly : Polygon) (r : Rect) (f : fault) :
  subImage cv source mask poly r = Fault f -> f = BadRoi /\ outside source r.
Proof.
  unfold subImage. destruct (roi _ r) as [sub|g] eqn:Hroi; cbn [bind]; [discriminate|].
  intros [= <-]. exact (roi_fault _ _ _ Hroi).
Qed.

Lemma rankRejects_defined (this : Extractor) (area : Z) (r : Rect) :
  boxWidth r <> 0 -> exists b, rankRejects this area r = Ok b.
Proof.
  intros Hw. unfold rankRejects, ratio.
  destruct (_ <? _); [eexists; reflexivity|].
  destruct (Z.eqb_spec (boxWidth r) 0); [contradiction|]. cbn [bind]. eexists; reflexivity.
Qed.

Lemma suitRejects_defined (this : Extractor) (area : Z) (r : Rect) :
  boxWidth r <> 0 -> exists b, suitRejects error this area r = Ok b.
Proof.
  intros Hw. unfold suitRejects, ratio.
  destruct (_ <? _); [eexists; reflexivity|].
  destruct (Z.eqb_spec (boxWidth r) 0); [contradiction|]. cbn [bind]. eexists; reflexivity.
Qed.

(** A fault of the rank loop comes from the sub-image of the contour the loop
    selects, whose box fails the assertion. *)
Lemma rankLoop_fault (area : Z) (cs : list (Polygon * Rect)) (this : Extractor)
      (mask : Mat) (f : fault) :
  noFlatBox cs -> rankLoop cv area cs this mask = Fault f ->
  f = BadRoi /\
  exists poly r,
    In (poly, r) cs /\ rankRejects this area r = Ok false /\ outside (src this) r.
Proof.
  induction 1 as [|[poly r] rest Hw Hrest IH]; cbn [rankLoop]; [discriminate|].
  cbn [snd] in Hw. destruct (rankRejects_defined this area r Hw) as [b Hb].
  rewrite Hb. cbn [bind]. destruct b.
  - intros Hrun. destruct (IH Hrun) as (Hf & p & q & Hmem & Hsel & Hout).
    split; [exact Hf|]. exists p, q. split; [right; exact Hmem|auto].
  - destruct (subImage cv _ mask poly r) as [[sub m]|g] eqn:Hsub; cbn [bind]; [discriminate|].
    intros [= <-]. destruct (subImage_fault _ _ _ _ _ Hsub) as (Hg & Hout).
    split; [exact Hg|]. exists poly, r. split; [left; reflexivity|]. split; [exact Hb|exact Hout].
Qed.

Lemma suitLoop_fault (area : Z) (cs : list (Polygon * Rect)) (this : Extractor)
      (mask : Mat) (f : fault) :
  noFlatBox cs -> suitLoop cv error area cs this mask = Fault f ->
  f = BadRoi /\
  exists poly r,
    In (poly, r) cs /\ suitRejects error this area r = Ok false /\ outside (src this) r.
Proof.
  induction 1 as [|[poly r] rest Hw Hrest IH]; cbn [suitLoop]; [discriminate|].
  cbn [snd] in Hw. destruct (suitRejects_defined this area r Hw) as [b Hb].
  rewrite Hb. cbn [bind]. destruct b.
  - intros Hrun. destruct (IH Hrun) as (Hf & p & q & Hmem & Hsel & Hout).
    split; [exact Hf|]. exists p, q. split; [right; exact Hmem|auto].
  - destruct (subImage cv _ mask poly r) as [[sub m]|g] eqn:Hsub; cbn [bind]; [discriminate|].
    intros [= <-]. destruct (subImage_fault _ _ _ _ _ Hsub) as (Hg & Hout).
    split; [exact Hg|]. exists poly, r. split; [left; reflexivity|]. split; [exact Hb|exact Hout].
Qed.

End Faults.

(** X12.  How the program's own operations can stop [extract] without a
    result (the library routines are taken to return), on an image with
    sizes whose corner region has pixels, in any state of the object and for
    any boxes.  A division by zero needs a contour whose box has width zero.
    When no box of the contour list has, a call that stops has stopped on the
    failed assertion of the region-of-interest constructor, and there is a
    contour of the list whose box fails that assertion on the region and
    which the call has selected: the rank test of lines 94-96 accepts it, or
    the rank loop has returned with a position that is not negative and the
    suit test of line 129 accepts it. *)
Theorem faults_without_flat_box (cv : OpenCV) (error : Z) (this : Extractor) (input : Mat) :
  wfInput input -> empty (regionOf input) = false -> noFlatBox (contoursIn cv input) ->
  let area := Int.mul (cols (regionOf input)) (rows (regionOf input)) in
  forall f, extract cv error this input = Fault f ->
    f = BadRoi /\
    exists poly r,
      In (poly, r) (contoursIn cv input) /\
      outside (regionOf input) r /\
      roi (regionOf input) r = Fault BadRoi /\
      (rankRejects (entered cv this input) area r = Ok false \/
       exists this1 mask1,
         rankLoop cv area (contoursIn cv input) (entered cv this input)
                  (zeros (rows (regionOf input)) (cols (regionOf input)))
         = Ok (this1, mask1) /\
         0 <= rankBrYPosition this1 /\
         suitRejects error this1 area r = Ok false).
Proof.
  intros Hwf _ Hflat area f. rewrite (extract_entered cv error this input Hwf).
  unfold findSubImages, findSubImages_run. rewrite contourList_entered.
  change (src (entered cv this input)) with (regionOf input). fold area.
  destruct (rankLoop cv area (contoursIn cv input) (entered cv this input) _)
    as [[this1 mask1]|g] eqn:Hrank; cbn [bind].
  - destruct (Z.ltb_spec (rankBrYPosition this1) 0) as [Hneg|Hpos]; cbn [bind]; [discriminate|].
    destruct (suitLoop cv error area (contoursIn cv input) this1 mask1)
      as [[this2 mask2]|g] eqn:Hsuit; cbn [bind]; [discriminate|].
    intros [= <-].
    destruct (suitLoop_fault cv error _ _ _ _ _ Hflat Hsuit) as (Hg & poly & r & Hmem & Hsel & Hout).
    destruct (rankLoop_members cv _ _ _ _ _ _ Hrank) as (_ & Hsrc & _).
    rewrite Hsrc in Hout. change (src (entered cv this input)) with (regionOf input) in Hout.
    split; [exact Hg|]. exists poly, r.
    split; [exact Hmem|]. split; [exact Hout|]. split; [exact (outside_roi _ _ Hout)|].
    right. exists this1, mask1. auto.
  - intros [= <-].
    destruct (rankLoop_fault cv _ _ _ _ _ Hflat Hrank) as (Hg & poly & r & Hmem & Hsel & Hout).
    change (src (entered cv this input)) with (regionOf input) in Hout.
    split; [exact Hg|]. exists poly, r.
    split; [exact Hmem|]. split; [exact Hout|]. split; [exact (outside_roi _ _ Hout)|].
    left. exact Hsel.
Qed.

Lemma faults_without_flat_box_witness :
  (wfInput card /\ empty (regionOf card) = false /\
   noFlatBox (contoursIn (cvStub [glyphOut]) card)) /\
  boundingRectOf glyphOut = mkRect (-5) 10 40 70 /\
  rankFilter 100 160 (mkRect (-5) 10 40 70) = true /\
  extract (cvStub [glyphOut]) margin (Extractor_new false (-1)) card = Fault BadRoi /\
  exists poly r,
    In (poly, r) (contoursIn (cvStub [glyphOut]) card) /\ outside (regionOf card) r.
Proof.
  assert (Hwf : wfInput card) by concrete.
  assert (Hne : empty (regionOf card) = false) by reflexivity.
  assert (Hflat : noFlatBox (contoursIn (cvStub [glyphOut]) card)).
  { unfold noFlatBox. cbn. repeat constructor. vm_compute. discriminate. }
  split; [auto|]. split; [reflexivity|]. split; [reflexivity|].
  destruct (extract (cvStub [glyphOut]) margin (Extractor_new false (-1)) card)
    as [[s ok]|f] eqn:Hrun.
  - assert (Hno : (r <- extract (cvStub [glyphOut]) margin (Extractor_new false (-1)) card ;;
                   Ok true) = Fault BadRoi) by (vm_compute; reflexivity).
    rewrite Hrun in Hno. discriminate.
  - destruct (faults_without_flat_box (cvStub [glyphOut]) margin (Extractor_new false (-1)) card
                Hwf Hne Hflat f Hrun) as (-> & poly & r & Hmem & Hout & _).
    split; [reflexivity|]. exists poly, r. split; [exact Hmem | exact Hout].
Defined.

(** ** The preview windows *)

Lemma extract_shows_entered (cv : OpenCV) (error : Z) (this : Extractor) (input : Mat) :
  wfInput input ->
  extract_shows cv error this input = findSubImages_shows cv error (entered cv this input).
Proof. intros Hwf. unfold extract_shows. now rewrite region_wf. Qed.

(** X13.  On an object in one of the states of its life and a picture with
    a well-formed region, [showResult] opens its windows (and waits for a
    key) exactly when the display was enabled at construction and the call
    returns true; with the display disabled no call opens a window, and no
    call that returns false does. *)
Theorem preview_exactly_on_success (cv : OpenCV) (error : Z) (this : Extractor) (input : Mat) :
  wellFormedRegion cv input -> consistent this ->
  exists this' ok,
    extract cv error this input = Ok (this', ok) /\
    extract_shows cv error this input = Ok (ok && enableShowResult this).
Proof.
  intros Hwf Hc.
  destruct (extract_step cv error this input Hwf) as (this' & Hrun & _ & Hrank).
  exists this', (negb (empty (rank this') || empty (suit this'))).
  split; [exact Hrun|].
  pose proof Hwf as (Hin0 & _).
  rewrite (extract_shows_entered cv error this input Hin0), findSubImages_shows_run.
  rewrite (extract_entered cv error this input Hin0) in Hrun. unfold findSubImages in Hrun.
  destruct (findSubImages_run cv error (entered cv this input)) as [[s mask]|f] eqn:Hfs;
    cbn [bind] in *; [|discriminate].
  injection Hrun as ->.
  destruct (findSubImages_run_members cv error _ _ _ Hfs) as (He & _).
  unfold showsResult. rewrite He. cbn [entered set_src set_src_gray enableShowResult].
  destruct (empty (rank this')) eqn:Hr; cbn [negb orb andb].
  - now rewrite Bool.andb_false_r.
  - destruct (empty (suit this')); cbn [negb andb]; [now rewrite Bool.andb_false_r|].
    assert (Hpos : 0 <= rankBrYPosition this').
    { destruct Hrank as [[Hy _]|[Hrk Hy]]; [lia|].
      destruct Hc as [(_ & Hre & _)|(Hp & _)]; [congruence|lia]. }
    destruct (Z.leb_spec 0 (rankBrYPosition this')); [reflexivity|lia].
Qed.

Lemma preview_exactly_on_success_witness :
  (wellFormedRegion (cvStub [glyphA; glyphB]) card /\ consistent (Extractor_new true (-1))) /\
  exists this' ok,
    extract (cvStub [glyphA; glyphB]) margin (Extractor_new true (-1)) card = Ok (this', ok) /\
    extract_shows (cvStub [glyphA; glyphB]) margin (Extractor_new true (-1)) card
    = Ok (ok && true).
Proof.
  assert (Hwf : wellFormedRegion (cvStub [glyphA; glyphB]) card) by concrete.
  assert (Hc : consistent (Extractor_new true (-1))) by (left; concrete).
  split; [auto|].
  exact (preview_exactly_on_success (cvStub [glyphA; glyphB]) margin (Extractor_new true (-1))
           card Hwf Hc).
Defined.
